(** * Simple Social front end ([app/frontend.py]): URL transform builder
      and session controller

    A shallow embedding of the Streamlit client.  Python [str] values are
    sequences of Unicode code points, [bytes] values sequences of integers
    below 256; both are lists of [Z].  The library calls of the script
    ([str.encode], [base64.b64encode], [urllib.parse.quote], [str.split],
    [str.join]) are written out as functions on those lists. *)

From Stdlib Require Import ZArith List Bool Lia String Ascii.
Import ListNotations.
Open Scope Z_scope.

Ltac Zify.zify_post_hook ::= Z.to_euclidean_division_equations.

(* ------------------------------------------------------------------ *)
(** ** Strings and bytes *)

Module Py.

(** A Python [str]: its code points. *)
Definition str := list Z.
(** A Python [bytes] object. *)
Definition bytes := list Z.

(** An ASCII literal of the script as a [str]. *)
Definition lit (s : string) : str :=
  map (fun a => Z.of_N (N_of_ascii a)) (list_ascii_of_string s).

(** Truthiness of a [str]: [if s:] holds for the non-empty ones. *)
Definition truthy (s : str) : bool :=
  match s with [] => false | _ :: _ => true end.

(** Truthiness of a value that may be [None]. *)
Definition truthy_opt (o : option str) : bool :=
  match o with None => false | Some s => truthy s end.

Definition is_byte (b : Z) : Prop := 0 <= b < 256.
Definition is_ascii (c : Z) : Prop := 0 <= c < 128.

(** Code points [str.encode('utf-8')] accepts: the Unicode scalar values.
    A lone surrogate raises [UnicodeEncodeError]. *)
Definition scalar_value (c : Z) : bool :=
  ((0 <=? c) && (c <? 55296)) || ((57344 <=? c) && (c <? 1114112)).

(** UTF-8 encoding of one code point; [None] stands for the exception. *)
Definition utf8_char (c : Z) : option bytes :=
  if negb (scalar_value c) then None
  else if c <? 128 then Some [c]
  else if c <? 2048 then Some [192 + c / 64; 128 + c mod 64]
  else if c <? 65536 then
    Some [224 + c / 4096; 128 + (c / 64) mod 64; 128 + c mod 64]
  else
    Some [240 + c / 262144; 128 + (c / 4096) mod 64;
          128 + (c / 64) mod 64; 128 + c mod 64].

(** [s.encode('utf-8')]. *)
Fixpoint encode_utf8 (s : str) : option bytes :=
  match s with
  | [] => Some []
  | c :: s' =>
      match utf8_char c, encode_utf8 s' with
      | Some bs, Some rest => Some (bs ++ rest)
      | _, _ => None
      end
  end.

(** [bs.decode('utf-8')] on the ASCII bytes, where the decoded text has
    the code points of the bytes.  Longer sequences are not decoded by
    this model ([None]); [b64encode_ascii] shows that the one caller,
    which decodes base64 text, never reaches them. *)
Definition decode_ascii (bs : bytes) : option str :=
  if forallb (fun b => (0 <=? b) && (b <? 128)) bs then Some bs else None.

(** [s.split(sep)] for a separator of one character. *)
Fixpoint split (sep : Z) (s : str) : list str :=
  match s with
  | [] => [[]]
  | c :: s' =>
      if c =? sep then [] :: split sep s'
      else match split sep s' with
           | [] => [[c]]
           | p :: ps => (c :: p) :: ps
           end
  end.

(** [sep.join(parts)]. *)
Fixpoint join (sep : str) (parts : list str) : str :=
  match parts with
  | [] => []
  | [p] => p
  | p :: ps => p ++ sep ++ join sep ps
  end.

End Py.

(* ------------------------------------------------------------------ *)
(** ** base64 and urllib.parse *)

Module Base64.
Import Py.

(** The alphabet of RFC 4648, as the ASCII code of the digit of value
    [i]. *)
Definition b64char (i : Z) : Z :=
  if i <? 26 then 65 + i
  else if i <? 52 then 97 + (i - 26)
  else if i <? 62 then 48 + (i - 52)
  else if i =? 62 then 43
  else 47.

Definition pad : Z := 61.

(** [base64.b64encode]: three bytes give four digits, a last group of
    one or two bytes is padded with [=]. *)
Fixpoint b64encode (bs : bytes) : bytes :=
  match bs with
  | [] => []
  | [a] => [b64char (a / 4); b64char ((a mod 4) * 16); pad; pad]
  | [a; b] =>
      [b64char (a / 4); b64char ((a mod 4) * 16 + b / 16);
       b64char ((b mod 16) * 4); pad]
  | a :: b :: c :: rest =>
      b64char (a / 4) :: b64char ((a mod 4) * 16 + b / 16)
      :: b64char ((b mod 16) * 4 + c / 64) :: b64char (c mod 64)
      :: b64encode rest
  end.

(** The value of a base64 digit. *)
Definition b64index (ch : Z) : option Z :=
  if (65 <=? ch) && (ch <=? 90) then Some (ch - 65)
  else if (97 <=? ch) && (ch <=? 122) then Some (ch - 97 + 26)
  else if (48 <=? ch) && (ch <=? 57) then Some (ch - 48 + 52)
  else if ch =? 43 then Some 62
  else if ch =? 47 then Some 63
  else None.

(** A strict base64 decoder: groups of four digits, padding only in the
    last group. *)
Fixpoint b64decode (cs : bytes) : option bytes :=
  match cs with
  | [] => Some []
  | c0 :: c1 :: c2 :: c3 :: rest =>
      match b64index c0, b64index c1 with
      | Some s0, Some s1 =>
          if c3 =? pad then
            match rest with
            | [] =>
                if c2 =? pad then Some [s0 * 4 + s1 / 16]
                else match b64index c2 with
                     | Some s2 =>
                         Some [s0 * 4 + s1 / 16; (s1 mod 16) * 16 + s2 / 4]
                     | None => None
                     end
            | _ :: _ => None
            end
          else
            match b64index c2, b64index c3, b64decode rest with
            | Some s2, Some s3, Some tl =>
                Some (s0 * 4 + s1 / 16 :: (s1 mod 16) * 16 + s2 / 4
                      :: (s2 mod 4) * 64 + s3 :: tl)
            | _, _, _ => None
            end
      | _, _ => None
      end
  | _ => None
  end.

End Base64.

Module UrlQuote.
Import Py.

(** [_ALWAYS_SAFE] of [urllib.parse]: letters, digits and [_.-~]. *)
Definition always_safe (b : Z) : bool :=
  ((65 <=? b) && (b <=? 90)) || ((97 <=? b) && (b <=? 122))
  || ((48 <=? b) && (b <=? 57))
  || (b =? 95) || (b =? 46) || (b =? 45) || (b =? 126).

(** The default of [quote]'s [safe] argument is ['/']. *)
Definition default_safe (b : Z) : bool := b =? 47.

Definition hexdigit (n : Z) : Z := if n <? 10 then 48 + n else 55 + n.

(** ['%{:02X}'.format(b)], or the byte itself when it is safe. *)
Definition quoter (safe : Z -> bool) (b : Z) : str :=
  if always_safe b || safe b then [b]
  else [37; hexdigit (b / 16); hexdigit (b mod 16)].

Definition quote_from_bytes (safe : Z -> bool) (bs : bytes) : str :=
  flat_map (quoter safe) bs.

(** [urllib.parse.quote(s)], with the default [safe='/']. *)
Definition quote (s : str) : option str :=
  match encode_utf8 s with
  | Some bs => Some (quote_from_bytes default_safe bs)
  | None => None
  end.

Definition hexval (ch : Z) : option Z :=
  if (48 <=? ch) && (ch <=? 57) then Some (ch - 48)
  else if (65 <=? ch) && (ch <=? 70) then Some (ch - 55)
  else if (97 <=? ch) && (ch <=? 102) then Some (ch - 87)
  else None.

(** Percent-decoding of a byte string: [%XY] with two hexadecimal digits
    is the byte [XY], every other byte stands for itself. *)
Fixpoint percent_decode (bs : bytes) : bytes :=
  match bs with
  | [] => []
  | c :: tl =>
      match tl with
      | h :: l :: rest =>
          if c =? 37 then
            match hexval h, hexval l with
            | Some x, Some y => 16 * x + y :: percent_decode rest
            | _, _ => c :: percent_decode tl
            end
          else c :: percent_decode tl
      | _ => c :: percent_decode tl
      end
  end.

(** [urllib.parse.unquote_to_bytes(s)]. *)
Definition unquote_to_bytes (s : str) : option bytes :=
  match encode_utf8 s with
  | Some bs => Some (percent_decode bs)
  | None => None
  end.

End UrlQuote.

(* ------------------------------------------------------------------ *)
(** ** Utility helpers of the script *)

Module Frontend.
Import Py Base64 UrlQuote.

(** [encode_text_for_overlay(text)]: base64 of the UTF-8 bytes, then
    [urllib.parse.quote].  [None] stands for an exception of
    [text.encode]. *)
Definition encode_text_for_overlay (text : str) : option str :=
  if negb (truthy text) then Some []
  else
    match encode_utf8 text with
    | None => None
    | Some bs =>
        match decode_ascii (b64encode bs) with
        | None => None
        | Some base64_text => quote base64_text
        end
    end.

Definition overlay_prefix : str := lit "l-text,ie-".
Definition overlay_suffix : str :=
  lit ",ly-N20,lx-20,fs-100,co-white,bg-000000A0,l-end".

(** The f-string of [text_overlay]. *)
Definition text_overlay (encoded_caption : str) : str :=
  overlay_prefix ++ encoded_caption ++ overlay_suffix.

Definition slash : Z := 47.

(** The part of [create_transformed_url] after the caption branch. *)
Definition splice (original_url transformation_params : str) : str :=
  if negb (truthy transformation_params) then original_url
  else
    let parts := split slash original_url in
    if (Z.of_nat (List.length parts) <? 5) then original_url
    else
      let imagekit_id := nth 3 parts [] in
      let file_path := join [slash] (skipn 4 parts) in
      let base_url := join [slash] (firstn 4 parts) in
      base_url ++ lit "/tr:" ++ transformation_params ++ [slash] ++ file_path.

(** [create_transformed_url(original_url, transformation_params, caption)];
    [caption] is [None] when the argument is left out. *)
Definition create_transformed_url
    (original_url transformation_params : str) (caption : option str)
  : option str :=
  if truthy_opt caption then
    match encode_text_for_overlay (match caption with Some c => c | None => [] end) with
    | None => None
    | Some encoded_caption =>
        Some (splice original_url (text_overlay encoded_caption))
    end
  else Some (splice original_url transformation_params).

(** What a reader of the URL does with the token after [ie-]:
    percent-decoding, then base64 decoding. *)
Definition decode_overlay_token (tok : str) : option bytes :=
  match unquote_to_bytes tok with
  | Some bs => b64decode bs
  | None => None
  end.

(** *** Reading the token back, for the statements below *)

Definition comma : Z := 44.

(** Letters, digits, ['/'] and ['%']. *)
Definition token_char (c : Z) : bool :=
  ((65 <=? c) && (c <=? 90)) || ((97 <=? c) && (c <=? 122))
  || ((48 <=? c) && (c <=? 57)) || (c =? 47) || (c =? 37).

Definition b64_digit_or_pad (c : Z) : bool :=
  ((65 <=? c) && (c <=? 90)) || ((97 <=? c) && (c <=? 122))
  || ((48 <=? c) && (c <=? 57)) || (c =? 43) || (c =? 47) || (c =? 61).

(** The segment of a built URL that follows the first four: the
    transform segment. *)
Definition transform_segment (out : str) : str := nth 4 (split slash out) [].

Fixpoint strip_prefix (p s : str) : option str :=
  match p, s with
  | [], _ => Some s
  | x :: p', y :: s' => if x =? y then strip_prefix p' s' else None
  | _ :: _, [] => None
  end.

Fixpoint take_until (c : Z) (s : str) : str :=
  match s with
  | [] => []
  | x :: s' => if x =? c then [] else x :: take_until c s'
  end.

(** The token a reader finds in a built URL: what follows [tr:l-text,ie-]
    in the transform segment, up to the next comma or the end of the
    segment. *)
Definition embedded_token (out : str) : option str :=
  match strip_prefix (lit "tr:" ++ overlay_prefix) (transform_segment out) with
  | Some rest => Some (take_until comma rest)
  | None => None
  end.

End Frontend.

(* ------------------------------------------------------------------ *)
(** ** The backend, seen from the client *)

Module Http.
Import Py.

Inductive Method := GET | POST | DELETE.

Inductive Endpoint :=
| AuthJwtLogin            (* /auth/jwt/login *)
| AuthRegister            (* /auth/register *)
| UsersMe                 (* /users/me *)
| Feed                    (* /feed *)
| Upload                  (* /upload *)
| Posts (post_id : str).  (* /posts/{id} *)

Inductive Payload :=
| NoPayload
| FormData (fields : list (str * str))
| JsonData (fields : list (str * str))
| Multipart (file_name : str) (file_value : bytes) (file_type : str)
            (fields : list (str * str)).

(** One call of [requests]; [bearer] is the token of the
    [Authorization] header, [None] for the empty header dict. *)
Record Request := mkRequest {
  method : Method;
  endpoint : Endpoint;
  bearer : option str;
  payload : Payload;
  timeout : option Z
}.

Record UserIdentity := mkUser {
  email : str;
  opaque_fields : list (str * str)
}.

(** A post of the feed; a field the dict may lack is an [option]. *)
Record Post := mkPost {
  id : str;
  post_email : option str;
  created_at : option str;
  caption : option str;
  file_type : option str;
  url : option str;
  is_owner : option bool
}.

(** What [response.json()] gives, by the shapes of the REST contract. *)
Inductive Json :=
| JToken (access_token : str)
| JUser (u : UserIdentity)
| JFeed (posts : option (list Post))
| JDetail (detail : option str)
| JOther.

(** A response: [json] is [None] when the body does not parse. *)
Record Response := mkResponse {
  status_code : Z;
  json : option Json;
  text : str
}.

(** A call either returns a response or raises a transport exception. *)
Inductive Outcome :=
| Returns (r : Response)
| Raises.

(** The backend answers a request knowing the requests made before it,
    so successive calls may get any sequence of outcomes. *)
Definition Backend := list Request -> Request -> Outcome.

End Http.

(* ------------------------------------------------------------------ *)
(** ** Streamlit: session state, query parameters, widgets, control *)

Module St.
Import Py Http.

(** [st.session_state] after the initialisation of lines 15-20. *)
Record SessionState := mkSession {
  token : option str;
  user : option UserIdentity;
  last_token_check_failed : bool
}.

Inductive Shown :=
| ShownText (s : str)
| ShownJson (j : Json).

Inductive Widget :=
| Title (s : str)
| TextInput (label : str)
| Button (label : str) (key : option str)
| ErrorMsg (s : str)
| ErrorWith (s : str) (v : Shown)
| SuccessMsg (s : str)
| InfoMsg (s : str)
| Markdown (s : str)
| Image (src : str)
| Video (src : str)
| Caption (s : str)
| SidebarTitle (s : str)
| Radio (label : str)
| FileUploader (label : str)
| TextArea (label : str).

(** Everything a run of the script reads and writes: the session state,
    the [token] query parameter of the address bar (the token carrier),
    the requests sent so far and the widgets drawn in this run. *)
Record World := mkWorld {
  session_state : SessionState;
  query_params : option str;
  sent : list Request;
  screen : list Widget
}.

Inductive Exn :=
| TransportError       (* raised by a call of [requests] *)
| JsonError            (* [response.json()] or a subscript of its value *)
| UnicodeEncodeError.  (* [str.encode] *)

(** Why a block of the script stops before its end. *)
Inductive Signal :=
| Raise (e : Exn)   (* an exception of class [Exception] *)
| Rerun             (* [st.rerun()] *)
| Return            (* [return] *)
| Continue.         (* [continue] *)

Inductive Result (A : Type) :=
| Done (a : A) (w : World)
| Stop (s : Signal) (w : World).
Arguments Done {A} a w.
Arguments Stop {A} s w.

Definition M (A : Type) := World -> Result A.

Definition ret {A} (a : A) : M A := fun w => Done a w.

Definition bind {A B} (m : M A) (k : A -> M B) : M B :=
  fun w => match m w with
           | Done a w' => k a w'
           | Stop s w' => Stop s w'
           end.

Definition stop {A} (s : Signal) : M A := fun w => Stop s w.

(** [try: body  except Exception: handler]. *)
Definition try_except {A} (body handler : M A) : M A :=
  fun w => match body w with
           | Stop (Raise _) w' => handler w'
           | r => r
           end.

(** The body of a [def]: a [return] ends the call. *)
Definition def (body : M unit) : M unit :=
  fun w => match body w with
           | Stop Return w' => Done tt w'
           | r => r
           end.

(** One pass of a [for] body: a [continue] ends the pass. *)
Definition pass (body : M unit) : M unit :=
  fun w => match body w with
           | Stop Continue w' => Done tt w'
           | r => r
           end.

Definition world_of {A} (r : Result A) : World :=
  match r with Done _ w => w | Stop _ w => w end.

Definition get {A} (f : World -> A) : M A := fun w => Done (f w) w.

Definition set_session (f : SessionState -> SessionState) : M unit :=
  fun w => Done tt (mkWorld (f (session_state w)) (query_params w)
                            (sent w) (screen w)).

Definition set_token (t : option str) : M unit :=
  set_session (fun s => mkSession t (user s) (last_token_check_failed s)).
Definition set_user (u : option UserIdentity) : M unit :=
  set_session (fun s => mkSession (token s) u (last_token_check_failed s)).
Definition set_last_token_check_failed (b : bool) : M unit :=
  set_session (fun s => mkSession (token s) (user s) b).

(** [st.experimental_set_query_params(token=...)]; without arguments it
    clears the parameters. *)
Definition experimental_set_query_params (t : option str) : M unit :=
  fun w => Done tt (mkWorld (session_state w) t (sent w) (screen w)).

Definition draw (x : Widget) : M unit :=
  fun w => Done tt (mkWorld (session_state w) (query_params w) (sent w)
                            (screen w ++ [x])).

(** The widget values of one run: the text fields, the button pressed
    (by its key, or its label when it has none), the page chosen in the
    sidebar, the file and the caption of the upload form. *)
Record Inputs := mkInputs {
  email_input : str;
  password_input : str;
  clicked : option str;
  feed_chosen : bool;
  uploaded_file : option (str * bytes * str);
  caption_input : str
}.

Fixpoint str_eqb (a b : str) : bool :=
  match a, b with
  | [], [] => true
  | x :: a', y :: b' => (x =? y) && str_eqb a' b'
  | _, _ => false
  end.

Definition widget_id (label : str) (key : option str) : str :=
  match key with Some k => k | None => label end.

(** [st.button(label, key=key)]: draws the button, and is true in the
    run its click started. *)
Definition button (inp : Inputs) (label : str) (key : option str) : M bool :=
  bind (draw (Button label key)) (fun _ =>
  ret (match clicked inp with
       | Some c => str_eqb c (widget_id label key)
       | None => false
       end)).

(** A call of [requests]: logged, then answered by the backend. *)
Definition request (be : Backend) (r : Request) : M Response :=
  fun w =>
    let w' := mkWorld (session_state w) (query_params w) (sent w ++ [r])
                      (screen w) in
    match be (sent w) r with
    | Returns resp => Done resp w'
    | Raises => Stop (Raise TransportError) w'
    end.

(** [response.json()]. *)
Definition json_of (resp : Response) : M Json :=
  match json resp with
  | Some j => ret j
  | None => stop (Raise JsonError)
  end.

End St.

Declare Scope script_scope.
Delimit Scope script_scope with script.
Notation "x <- m ;; k" := (St.bind m (fun x => k))
  (at level 61, m at next level, right associativity) : script_scope.
Notation "m ;; k" := (St.bind m (fun _ => k))
  (at level 61, right associativity) : script_scope.

(* ------------------------------------------------------------------ *)
(** ** The script *)

Module App.
Import Py Http St Frontend.
Local Open Scope script_scope.

(** A new browser load: [st.session_state] has no key yet, lines 15-20
    give the three of them their defaults. *)
Definition initial_session : SessionState := mkSession None None false.

Definition new_load (carrier : option str) : World :=
  mkWorld initial_session carrier [] [].

(** Lines 23-25: restore the token from the query parameters. *)
Definition restore_token : M unit :=
  tok <- get (fun w => token (session_state w)) ;;
  qp <- get query_params ;;
  match qp with
  | Some t => if negb (truthy_opt tok) then set_token (Some t) else ret tt
  | None => ret tt
  end.

(** [get_headers()]. *)
Definition get_headers : M (option str) :=
  tok <- get (fun w => token (session_state w)) ;;
  ret (if truthy_opt tok then tok else None).

(** Lines 35-48: fetch the user of a token that has none yet.  The body
    of a 200 answer is an identity by the REST contract; one of another
    shape is treated like a body that does not parse. *)
Definition reconcile (be : Backend) : M unit :=
  s <- get session_state ;;
  if truthy_opt (token s)
     && match user s with None => true | Some _ => false end
     && negb (last_token_check_failed s)
  then
    try_except
      (h <- get_headers ;;
       user_response <- request be (mkRequest GET UsersMe h NoPayload (Some 5)) ;;
       if status_code user_response =? 200 then
         j <- json_of user_response ;;
         match j with
         | JUser u => set_user (Some u)
         | _ => stop (Raise JsonError)
         end
       else
         set_token None ;;
         set_user None ;;
         experimental_set_query_params None ;;
         set_last_token_check_failed true)
      (set_last_token_check_failed true)
  else ret tt.

Definition rocket : str := [128640].
Definition camera : str := [128248].
Definition house : str := [127968].
Definition wastebasket : str := [128465; 65039].
Definition waving_hand : str := [128075].
Definition bullet : str := [8226].

Definition login_label : str := lit "Login".
Definition signup_label : str := lit "Sign Up".
Definition logout_label : str := lit "Logout".
Definition share_label : str := lit "Share".

(** Lines 91-113: the body of [if st.button("Login")].  As in
    [reconcile], a 200 body of the identity fetch that is not an identity
    is treated like a body that does not parse. *)
Definition login_clicked (be : Backend) (email password : str) : M unit :=
  let login_data := [(lit "username", email); (lit "password", password)] in
  response <-
    try_except
      (request be (mkRequest POST AuthJwtLogin None (FormData login_data)
                             (Some 8)))
      (draw (ErrorMsg (lit "Could not contact backend. Is the API running?")) ;;
       stop Return) ;;
  if status_code response =? 200 then
    token_data <- json_of response ;;
    match token_data with
    | JToken access_token =>
        set_token (Some access_token) ;;
        experimental_set_query_params (Some access_token) ;;
        h <- get_headers ;;
        user_response <- request be (mkRequest GET UsersMe h NoPayload None) ;;
        if status_code user_response =? 200 then
          j <- json_of user_response ;;
          match j with
          | JUser u => set_user (Some u) ;; stop Rerun
          | _ => stop (Raise JsonError)
          end
        else draw (ErrorMsg (lit "Failed to get user info"))
    | _ => stop (Raise JsonError)
    end
  else draw (ErrorMsg (lit "Invalid email or password!")).

(** [response.json().get("detail", "Registration failed")]. *)
Definition detail_of (j : Json) : M str :=
  match j with
  | JDetail (Some d) => ret d
  | JOther => stop (Raise JsonError)
  | _ => ret (lit "Registration failed")
  end.

(** Lines 117-131: the body of [if st.button("Sign Up")]. *)
Definition signup_clicked (be : Backend) (email password : str) : M unit :=
  let signup_data := [(lit "email", email); (lit "password", password)] in
  response <-
    try_except
      (request be (mkRequest POST AuthRegister None (JsonData signup_data)
                             (Some 8)))
      (draw (ErrorMsg (lit "Could not contact backend. Is the API running?")) ;;
       stop Return) ;;
  if status_code response =? 201 then
    draw (SuccessMsg (lit "Account created! Click Login now."))
  else
    error_detail <-
      try_except (j <- json_of response ;; detail_of j)
                 (ret (lit "Registration failed")) ;;
    draw (ErrorMsg (lit "Registration failed: " ++ error_detail)).

Definition login_page (be : Backend) (inp : Inputs) : M unit :=
  def (
    draw (Title (rocket ++ lit " Welcome to Simple Social")) ;;
    draw (TextInput (lit "Email:")) ;;
    draw (TextInput (lit "Password:")) ;;
    let email := email_input inp in
    let password := password_input inp in
    if truthy email && truthy password then
      b1 <- button inp login_label None ;;
      (if b1 then login_clicked be email password else ret tt) ;;
      b2 <- button inp signup_label None ;;
      (if b2 then signup_clicked be email password else ret tt)
    else draw (InfoMsg (lit "Enter your email and password above"))).

Definition upload_page (be : Backend) (inp : Inputs) : M unit :=
  def (
    draw (Title (camera ++ lit " Share Something")) ;;
    draw (FileUploader (lit "Choose media")) ;;
    draw (TextArea (lit "Caption:")) ;;
    match uploaded_file inp with
    | None => ret tt
    | Some (name, value, type) =>
        b <- button inp share_label None ;;
        if b then
          let data := [(lit "caption", caption_input inp)] in
          h <- get_headers ;;
          response <-
            try_except
              (request be (mkRequest POST Upload h
                                     (Multipart name value type data) (Some 30)))
              (draw (ErrorMsg (lit "Upload failed: cannot contact backend.")) ;;
               stop Return) ;;
          if status_code response =? 200 then
            draw (SuccessMsg (lit "Posted!")) ;; stop Rerun
          else
            err <- try_except (j <- json_of response ;; ret (ShownJson j))
                              (ret (ShownText (text response))) ;;
            draw (ErrorWith (lit "Upload failed! ") err)
        else ret tt
    end).

Definition or_default {A} (o : option A) (d : A) : A :=
  match o with Some a => a | None => d end.

Definition delete_key (p : Post) : str := lit "delete_" ++ id p.

(** Lines 182-194: the second column of a post. *)
Definition delete_column (be : Backend) (inp : Inputs) (post : Post) : M unit :=
  if or_default (is_owner post) false then
    b <- button inp wastebasket (Some (delete_key post)) ;;
    if b then
      h <- get_headers ;;
      resp <-
        try_except
          (request be (mkRequest DELETE (Posts (id post)) h NoPayload (Some 8)))
          (draw (ErrorMsg (lit "Failed to contact backend.")) ;; stop Continue) ;;
      if status_code resp =? 200 then
        draw (SuccessMsg (lit "Post deleted!")) ;; stop Rerun
      else draw (ErrorMsg (lit "Failed to delete post!"))
    else ret tt
  else ret tt.

(** A call of [create_transformed_url] in the script. *)
Definition transformed (u t : str) (c : option str) : M str :=
  match create_transformed_url u t c with
  | Some r => ret r
  | None => stop (Raise UnicodeEncodeError)
  end.

(** Lines 177-205: the body of [for post in posts]. *)
Definition render_post (be : Backend) (inp : Inputs) (post : Post) : M unit :=
  pass (
    draw (Markdown (lit "---")) ;;
    draw (Markdown (lit "**" ++ or_default (post_email post) (lit "Unknown")
                    ++ lit "** " ++ bullet ++ lit " "
                    ++ firstn 10 (or_default (created_at post) []))) ;;
    delete_column be inp post ;;
    let caption := or_default (caption post) [] in
    (if match file_type post with
        | Some ft => str_eqb ft (lit "image")
        | None => false
        end
     then
       uniform_url <- transformed (or_default (url post) []) [] (Some caption) ;;
       draw (Image uniform_url)
     else
       uniform_video_url <-
         transformed (or_default (url post) [])
                     (lit "w-400,h-200,cm-pad_resize,bg-blurred") None ;;
       draw (Video uniform_video_url) ;;
       draw (Caption caption)) ;;
    draw (Markdown [])).

Fixpoint for_each {A} (body : A -> M unit) (l : list A) : M unit :=
  match l with
  | [] => ret tt
  | x :: l' => body x ;; for_each body l'
  end.

(** [response.json().get("posts", [])]. *)
Definition posts_of (j : Json) : M (list Post) :=
  match j with
  | JFeed (Some ps) => ret ps
  | JOther => stop (Raise JsonError)
  | _ => ret []
  end.

Definition feed_page (be : Backend) (inp : Inputs) : M unit :=
  def (
    draw (Title (house ++ lit " Feed")) ;;
    h <- get_headers ;;
    response <-
      try_except
        (request be (mkRequest GET Feed h NoPayload (Some 8)))
        (draw (ErrorMsg (lit "Failed to contact backend. Is the API running?")) ;;
         stop Return) ;;
    if status_code response =? 200 then
      j <- json_of response ;;
      posts <- posts_of j ;;
      match posts with
      | [] =>
          draw (InfoMsg (lit "No posts yet! Be the first to share something."))
      | _ :: _ => for_each (render_post be inp) posts
      end
    else draw (ErrorMsg (lit "Failed to load feed"))).

(** Lines 213-232: the main logic. *)
Definition main (be : Backend) (inp : Inputs) : M unit :=
  u <- get (fun w => user (session_state w)) ;;
  match u with
  | None => login_page be inp
  | Some usr =>
      draw (SidebarTitle (waving_hand ++ lit " Hi " ++ email usr ++ lit "!")) ;;
      b <- button inp logout_label None ;;
      (if b then
         set_user None ;;
         set_token None ;;
         experimental_set_query_params None ;;
         stop Rerun
       else ret tt) ;;
      draw (Markdown (lit "---")) ;;
      draw (Radio (lit "Navigate:")) ;;
      if feed_chosen inp then feed_page be inp else upload_page be inp
  end.

(** One run of the script, top to bottom, on a cleared screen. *)
Definition script (be : Backend) (inp : Inputs) : M unit :=
  restore_token ;;
  reconcile be ;;
  main be inp.

Definition clear_screen (w : World) : World :=
  mkWorld (session_state w) (query_params w) (sent w) [].

Definition run (be : Backend) (inp : Inputs) (w : World) : Result unit :=
  script be inp (clear_screen w).

(** The widget values of the run that [st.rerun()] starts: no button is
    pressed in it. *)
Definition unclicked (inp : Inputs) : Inputs :=
  mkInputs (email_input inp) (password_input inp) None (feed_chosen inp)
           (uploaded_file inp) (caption_input inp).

(** One user interaction: the run it starts, and the run a [st.rerun()]
    of that one starts. *)
Definition interact (be : Backend) (inp : Inputs) (w : World) : Result unit :=
  match run be inp w with
  | Stop Rerun w' => run be (unclicked inp) w'
  | r => r
  end.

(** The world after a sequence of interactions. *)
Definition after (be : Backend) (inps : list Inputs) (w : World) : World :=
  fold_left (fun w inp => world_of (interact be inp w)) inps w.

(** The states of the session controller. *)
Inductive State :=
| Unauthenticated
| PendingVerification
| VerificationFailed
| Authenticated.

Definition state_of (s : SessionState) : State :=
  match token s, user s with
  | None, _ => Unauthenticated
  | Some _, Some _ => Authenticated
  | Some _, None =>
      if last_token_check_failed s then VerificationFailed
      else PendingVerification
  end.

(** Lines 23-48, the part of a run before the pages. *)
Definition prelude (be : Backend) : M unit := restore_token ;; reconcile be.

(** The header dict of [get_headers()] when the session token is [tok]. *)
Definition bearer_of (tok : str) : option str :=
  if truthy tok then Some tok else None.

(** The requests of lines 37 and 106 (they differ in the timeout). *)
Definition identity_request (h : option str) (t : option Z) : Request :=
  mkRequest GET UsersMe h NoPayload t.

(** The request of line 93. *)
Definition login_request (email password : str) : Request :=
  mkRequest POST AuthJwtLogin None
    (FormData [(lit "username", email); (lit "password", password)]) (Some 8).

(** The request of line 119. *)
Definition signup_request (email password : str) : Request :=
  mkRequest POST AuthRegister None
    (JsonData [(lit "email", email); (lit "password", password)]) (Some 8).

(** The request of line 165. *)
Definition feed_request (w : World) : Request :=
  mkRequest GET Feed
    (if truthy_opt (token (session_state w)) then token (session_state w)
     else None)
    NoPayload (Some 8).

(** The posts line 176 loops over, for the answer the backend gives to
    [feed_request] in the world [w]. *)
Definition feed_posts (be : Backend) (w : World) : list Post :=
  match be (sent w) (feed_request w) with
  | Returns resp =>
      if status_code resp =? 200 then
        match json resp with
        | Some (JFeed (Some ps)) => ps
        | _ => []
        end
      else []
  | Raises => []
  end.

(** *** Requests and widgets the statements below name *)

(** The guard of line 35. *)
Definition reconcile_due (s : SessionState) : bool :=
  truthy_opt (token s)
  && match user s with None => true | Some _ => false end
  && negb (last_token_check_failed s).

Definition login_form_drawn : list Widget :=
  [Title (rocket ++ lit " Welcome to Simple Social");
   TextInput (lit "Email:"); TextInput (lit "Password:")].

(** The message of line 125 or 131 for the answer [resp]. *)
Definition signup_message (resp : Response) : Widget :=
  if status_code resp =? 201 then
    SuccessMsg (lit "Account created! Click Login now.")
  else
    ErrorMsg (lit "Registration failed: "
              ++ match json resp with
                 | Some (JDetail (Some d)) => d
                 | _ => lit "Registration failed"
                 end).

(** The request of line 146. *)
Definition upload_request (w : World) (file : str * bytes * str)
    (caption : str) : Request :=
  mkRequest POST Upload
    (if truthy_opt (token (session_state w)) then token (session_state w)
     else None)
    (let '(name, value, type) := file in
     Multipart name value type [(lit "caption", caption)])
    (Some 30).

Definition upload_form : list Widget :=
  [Title (camera ++ lit " Share Something");
   FileUploader (lit "Choose media"); TextArea (lit "Caption:")].





Definition add_screen (w : World) (xs : list Widget) : World :=
  mkWorld (session_state w) (query_params w) (sent w) (screen w ++ xs).

Definition add_sent (w : World) (r : Request) : World :=
  mkWorld (session_state w) (query_params w) (sent w ++ [r]) (screen w).



End App.

(* ------------------------------------------------------------------ *)
(** ** Properties of runs *)

Module Props.
Import Py Http St App.

(** [m] keeps the property [P] of the world, however it ends. *)
Definition preserves (P : World -> Prop) {A} (m : M A) : Prop :=
  forall w, P w -> P (world_of (m w)).

Definition check_failed (w : World) : Prop :=
  last_token_check_failed (session_state w) = true.

Definition session_is (s : SessionState) (q : option str) (w : World) : Prop :=
  session_state w = s /\ query_params w = q.

(** A request of line 185 for a post of [posts] the user owns. *)
Definition owner_delete (posts : list Post) (r : Request) : Prop :=
  exists p, In p posts /\ is_owner p = Some true
            /\ method r = DELETE /\ endpoint r = Posts (id p).

(** The button of line 183 for a post of [posts] the user owns. *)
Definition owner_button (posts : list Post) (x : Widget) : Prop :=
  exists p, In p posts /\ is_owner p = Some true
            /\ x = Button wastebasket (Some (delete_key p)).

Definition is_button (x : Widget) : Prop := exists l k, x = Button l k.

(** What a loop over [posts] started in [w0] may add to the requests and
    the buttons. *)
Definition only_owner_deletes (posts : list Post) (w0 w : World) : Prop :=
  (forall r, In r (sent w) -> In r (sent w0) \/ owner_delete posts r)
  /\ (forall x, In x (screen w) -> is_button x ->
                In x (screen w0) \/ owner_button posts x).

(** [m] ends normally, or stops with a signal of [ok]. *)
Definition ends_in {A} (ok : Signal -> Prop) (m : M A) : Prop :=
  forall w, match m w with Done _ _ => True | Stop s _ => ok s end.

(** The token of the session is the one in the query parameters, and a
    session with a user has a token. *)
Definition session_sound (w : World) : Prop :=
  token (session_state w) = query_params w
  /\ (user (session_state w) <> None -> token (session_state w) <> None).

(** The same before the token is restored from the query parameters. *)
Definition session_restorable (w : World) : Prop :=
  (token (session_state w) = None \/ token (session_state w) = query_params w)
  /\ (user (session_state w) <> None -> token (session_state w) <> None).

(** Every request [w] has sent beyond those of [w0] carries the token
    [tok], and the session is the one of [w0]. *)
Definition sends_with_token (tok : str) (w0 w : World) : Prop :=
  session_state w = session_state w0
  /\ forall r, In r (sent w) -> In r (sent w0) \/ bearer r = Some tok.

(** Every request [w] has sent beyond those of [w0] goes to one of the
    three endpoints of the login page. *)
Definition auth_endpoint (e : Endpoint) : bool :=
  match e with
  | AuthJwtLogin | AuthRegister | UsersMe => true
  | _ => false
  end.

Definition sends_auth_only (w0 w : World) : Prop :=
  forall r, In r (sent w) -> In r (sent w0) \/ auth_endpoint (endpoint r) = true.

End Props.

(* ------------------------------------------------------------------ *)
(** ** Backends and inputs of the examples *)

Module Scenario.
Import Py Http St App.

(** A backend that accepts the login and is unreachable afterwards. *)
Definition down_after_login : Backend :=
  fun _ r =>
    match endpoint r with
    | AuthJwtLogin => Returns (mkResponse 200 (Some (JToken (lit "tok"))) [])
    | _ => Raises
    end.

(** A backend that accepts the login and knows the user. *)
Definition accepting_backend : Backend :=
  fun _ r =>
    match endpoint r with
    | AuthJwtLogin => Returns (mkResponse 200 (Some (JToken (lit "tok"))) [])
    | UsersMe =>
        Returns (mkResponse 200 (Some (JUser (mkUser (lit "a@b.c") []))) [])
    | _ => Raises
    end.

(** A backend that accepts the login and answers 401 to the rest. *)
Definition rejecting_identity : Backend :=
  fun _ r =>
    match endpoint r with
    | AuthJwtLogin => Returns (mkResponse 200 (Some (JToken (lit "tok"))) [])
    | _ => Returns (mkResponse 401 None [])
    end.

(** The login form filled in, and Login pressed. *)
Definition login_click : Inputs :=
  mkInputs (lit "a@b.c") (lit "pw") (Some login_label) true None [].

End Scenario.

(* ================================================================== *)
(** * Facts *)

Import Py Base64 UrlQuote Frontend Http St App Props Scenario.
Local Open Scope script_scope.

(** ** Splitting and joining *)

Ltac zcases :=
  repeat match goal with
         | |- context [?a <? ?b] => destruct (Z.ltb_spec a b)
         | |- context [?a <=? ?b] => destruct (Z.leb_spec a b)
         | |- context [?a =? ?b] => destruct (Z.eqb_spec a b)
         end; cbn [andb orb negb]; try lia.

Section Split.
Variable sep : Z.

Lemma split_not_nil (s : str) : split sep s <> [].
Proof.
  destruct s as [|c s]; cbn [split]; [discriminate|].
  destruct (c =? sep); [discriminate|].
  destruct (split sep s); discriminate.
Qed.

Lemma join_cons (p : str) (ps : list str) :
  ps <> [] -> join [sep] (p :: ps) = p ++ sep :: join [sep] ps.
Proof. destruct ps; [congruence|reflexivity]. Qed.

Lemma join_split (s : str) : join [sep] (split sep s) = s.
Proof.
  induction s as [|c s IH]; [reflexivity|].
  cbn [split]. destruct (Z.eqb_spec c sep) as [->|Hc].
  - rewrite join_cons by apply split_not_nil. now rewrite IH.
  - pose proof (split_not_nil s) as Hn.
    destruct (split sep s) as [|p ps]; [congruence|].
    destruct ps as [|q ps]; cbn [join] in *; cbn [app]; now rewrite <- IH.
Qed.

Lemma join_firstn_skipn (n : nat) (l : list str) :
  (0 < n < List.length l)%nat ->
  join [sep] (firstn n l) ++ [sep] ++ join [sep] (skipn n l) = join [sep] l.
Proof.
  revert l. induction n as [|n IH]; intros l Hn; [lia|].
  destruct l as [|p l]; cbn [List.length] in Hn; [lia|].
  cbn [firstn skipn].
  destruct n as [|n].
  - cbn [firstn join]. destruct l; [cbn in Hn; lia|reflexivity].
  - assert (Hl : (0 < S n < List.length l)%nat) by lia.
    specialize (IH l Hl).
    rewrite !join_cons.
    + rewrite <- IH. rewrite <- !app_assoc. reflexivity.
    + destruct l; [cbn in Hl; lia|discriminate].
    + destruct l; [cbn in Hl; lia|discriminate].
Qed.

(** A string with no separator is one segment, and the segments of a
    joined list are the list. *)
Lemma split_app_sep (p s : str) :
  ~ In sep p -> split sep (p ++ sep :: s) = p :: split sep s.
Proof.
  induction p as [|c p IH]; intros Hp; cbn [app split].
  - now rewrite Z.eqb_refl.
  - destruct (Z.eqb_spec c sep) as [->|Hc]; [exfalso; apply Hp; now left|].
    rewrite IH; [reflexivity|]. intros H; apply Hp; now right.
Qed.

Lemma split_no_sep (p : str) : ~ In sep p -> split sep p = [p].
Proof.
  induction p as [|c p IH]; intros Hp; cbn [split]; [reflexivity|].
  destruct (Z.eqb_spec c sep) as [->|Hc]; [exfalso; apply Hp; now left|].
  rewrite IH; [reflexivity|]. intros H; apply Hp; now right.
Qed.

Lemma split_join (ps : list str) :
  ps <> [] -> Forall (fun p => ~ In sep p) ps ->
  split sep (join [sep] ps) = ps.
Proof.
  induction ps as [|p ps IH]; intros Hn Hf; [congruence|].
  inversion Hf as [|? ? Hp Hps]; subst.
  destruct ps as [|q ps].
  - cbn [join]. now apply split_no_sep.
  - rewrite join_cons by discriminate.
    rewrite split_app_sep by assumption.
    rewrite IH; [reflexivity|discriminate|assumption].
Qed.
End Split.

(** ** UTF-8 *)

Lemma utf8_char_bytes (c : Z) :
  scalar_value c = true ->
  exists bs, utf8_char c = Some bs /\ Forall is_byte bs.
Proof.
  unfold utf8_char, scalar_value, is_byte. intros H. rewrite H. cbn [negb].
  revert H. zcases; intros _; eexists; (split; [reflexivity|]);
    repeat constructor; lia.
Qed.

Lemma encode_utf8_total (s : str) :
  forallb scalar_value s = true ->
  exists bs, encode_utf8 s = Some bs /\ Forall is_byte bs.
Proof.
  induction s as [|c s IH]; cbn [forallb encode_utf8]; intros H.
  - exists []. split; [reflexivity|constructor].
  - apply andb_true_iff in H as [Hc Hs].
    destruct (utf8_char_bytes c Hc) as (bs & -> & Hb).
    destruct (IH Hs) as (rest & -> & Hr).
    exists (bs ++ rest). split; [reflexivity|]. apply Forall_app; now split.
Qed.

Lemma utf8_char_is_byte (c : Z) (bs : bytes) :
  utf8_char c = Some bs -> Forall is_byte bs.
Proof.
  intros H. destruct (scalar_value c) eqn:Hc.
  - destruct (utf8_char_bytes c Hc) as (bs' & H' & Hb). congruence.
  - unfold utf8_char in H. rewrite Hc in H. discriminate.
Qed.

Lemma encode_utf8_is_byte (s : str) (bs : bytes) :
  encode_utf8 s = Some bs -> Forall is_byte bs.
Proof.
  revert bs. induction s as [|c s IH]; cbn [encode_utf8]; intros bs H.
  - injection H as <-. constructor.
  - destruct (utf8_char c) as [b|] eqn:Hc; [|discriminate].
    destruct (encode_utf8 s) as [rest|]; [|discriminate].
    injection H as <-. apply Forall_app; split;
      [now apply utf8_char_is_byte with c | now apply IH].
Qed.

Lemma encode_utf8_ascii (s : str) :
  Forall is_ascii s -> encode_utf8 s = Some s.
Proof.
  induction 1 as [|c s Hc _ IH]; cbn [encode_utf8]; [reflexivity|].
  rewrite IH. unfold utf8_char, scalar_value. unfold is_ascii in Hc.
  zcases. reflexivity.
Qed.

Lemma decode_ascii_ascii (bs : bytes) :
  Forall is_ascii bs -> decode_ascii bs = Some bs.
Proof.
  intros H. unfold decode_ascii.
  replace (forallb _ bs) with true; [reflexivity|].
  symmetry. apply forallb_forall. intros b Hb.
  rewrite Forall_forall in H. specialize (H b Hb). unfold is_ascii in H.
  zcases.
Qed.

(** ** base64 and percent-encoding *)

Lemma triples_ind (P : bytes -> Prop) :
  P [] -> (forall a, P [a]) -> (forall a b, P [a; b]) ->
  (forall a b c l, P l -> P (a :: b :: c :: l)) ->
  forall l, P l.
Proof.
  intros H0 H1 H2 H3 l.
  enough (P l /\ (forall a, P (a :: l)) /\ (forall a b, P (a :: b :: l)))
    by tauto.
  induction l as [|x l (IH0 & IH1 & IH2)]; auto.
Qed.

Lemma b64index_b64char (i : Z) :
  0 <= i < 64 -> b64index (b64char i) = Some i.
Proof.
  intros Hi. unfold b64index, b64char.
  zcases; f_equal; lia.
Qed.

Lemma b64char_not_pad (i : Z) : 0 <= i < 64 -> (b64char i =? pad) = false.
Proof. intros Hi. apply Z.eqb_neq. unfold b64char, pad. zcases. Qed.

Lemma b64char_ascii (i : Z) : 0 <= i < 64 -> is_ascii (b64char i).
Proof. intros Hi. unfold b64char, is_ascii. zcases. Qed.

Lemma b64decode_group (c0 c1 c2 c3 : Z) (rest : bytes) :
  b64decode (c0 :: c1 :: c2 :: c3 :: rest) =
  match b64index c0, b64index c1 with
  | Some s0, Some s1 =>
      if c3 =? pad then
        match rest with
        | [] =>
            if c2 =? pad then Some [s0 * 4 + s1 / 16]
            else match b64index c2 with
                 | Some s2 =>
                     Some [s0 * 4 + s1 / 16; (s1 mod 16) * 16 + s2 / 4]
                 | None => None
                 end
        | _ :: _ => None
        end
      else
        match b64index c2, b64index c3, b64decode rest with
        | Some s2, Some s3, Some tl =>
            Some (s0 * 4 + s1 / 16 :: (s1 mod 16) * 16 + s2 / 4
                  :: (s2 mod 4) * 64 + s3 :: tl)
        | _, _, _ => None
        end
  | _, _ => None
  end.
Proof. reflexivity. Qed.

Lemma b64encode_ascii (bs : bytes) :
  Forall is_byte bs -> Forall is_ascii (b64encode bs).
Proof.
  induction bs as [|a|a b|a b c l IH] using triples_ind; intros H;
    cbn [b64encode]; repeat match goal with
    | H : Forall _ (_ :: _) |- _ => inversion H; subst; clear H
    end; unfold is_byte in *;
    repeat (constructor; try (apply b64char_ascii; lia);
            try (unfold is_ascii, pad; lia)).
  now apply IH.
Qed.

Lemma b64decode_b64encode (bs : bytes) :
  Forall is_byte bs -> b64decode (b64encode bs) = Some bs.
Proof.
  induction bs as [|a|a b|a b c l IH] using triples_ind; intros H;
    repeat match goal with
    | H : Forall _ (_ :: _) |- _ => inversion H; subst; clear H
    end; unfold is_byte in *.
  - reflexivity.
  - cbn [b64encode]. rewrite b64decode_group.
    do 2 (rewrite b64index_b64char by lia).
    rewrite !Z.eqb_refl. do 2 f_equal. lia.
  - cbn [b64encode]. rewrite b64decode_group.
    do 2 (rewrite b64index_b64char by lia).
    rewrite Z.eqb_refl, b64char_not_pad by lia.
    rewrite b64index_b64char by lia.
    do 2 f_equal; [lia|f_equal; lia].
  - cbn [b64encode]. rewrite b64decode_group.
    do 4 (rewrite b64index_b64char by lia).
    rewrite b64char_not_pad by lia.
    rewrite IH by assumption.
    f_equal. f_equal; [lia|]. f_equal; [lia|]. f_equal; lia.
Qed.

(** *** Percent-encoding *)

Lemma hexval_hexdigit (n : Z) : 0 <= n < 16 -> hexval (hexdigit n) = Some n.
Proof. intros Hn. unfold hexval, hexdigit. zcases; f_equal; lia. Qed.

Lemma hexdigit_ascii (n : Z) : 0 <= n < 16 -> is_ascii (hexdigit n).
Proof. intros Hn. unfold hexdigit, is_ascii. zcases. Qed.

Lemma percent_decode_plain (c : Z) (tl : bytes) :
  c <> 37 -> percent_decode (c :: tl) = c :: percent_decode tl.
Proof.
  intros Hc. cbn [percent_decode].
  destruct tl as [|h [|l rest]]; try reflexivity.
  destruct (Z.eqb_spec c 37); [congruence|reflexivity].
Qed.

Lemma percent_decode_escape (x y : Z) (rest : bytes) :
  0 <= x < 16 -> 0 <= y < 16 ->
  percent_decode (37 :: hexdigit x :: hexdigit y :: rest)
  = 16 * x + y :: percent_decode rest.
Proof.
  intros Hx Hy. cbn [percent_decode].
  rewrite Z.eqb_refl, !hexval_hexdigit by lia. reflexivity.
Qed.

Lemma safe_is_plain (b : Z) :
  always_safe b || default_safe b = true -> b <> 37 /\ is_ascii b.
Proof.
  unfold always_safe, default_safe, is_ascii.
  zcases; intros; try discriminate; lia.
Qed.

Lemma percent_decode_quote (bs : bytes) :
  Forall is_byte bs ->
  percent_decode (quote_from_bytes default_safe bs) = bs.
Proof.
  unfold quote_from_bytes.
  induction 1 as [|b bs Hb _ IH]; [reflexivity|].
  cbn [flat_map]. unfold quoter at 1. unfold is_byte in Hb.
  destruct (always_safe b || default_safe b) eqn:Hs.
  - apply safe_is_plain in Hs as [Hs _].
    cbn [app]. rewrite percent_decode_plain by assumption. now rewrite IH.
  - cbn [app]. rewrite percent_decode_escape by lia. rewrite IH.
    f_equal. lia.
Qed.

Lemma quote_from_bytes_ascii (bs : bytes) :
  Forall is_byte bs -> Forall is_ascii (quote_from_bytes default_safe bs).
Proof.
  unfold quote_from_bytes.
  induction 1 as [|b bs Hb _ IH]; [constructor|].
  cbn [flat_map]. apply Forall_app; split; [|assumption].
  unfold quoter. unfold is_byte in Hb.
  destruct (always_safe b || default_safe b) eqn:Hs.
  - apply safe_is_plain in Hs as [_ Hs]. now constructor.
  - repeat constructor; try (apply hexdigit_ascii; lia).
    unfold is_ascii; lia.
Qed.

Lemma ascii_is_byte (bs : bytes) : Forall is_ascii bs -> Forall is_byte bs.
Proof.
  apply Forall_impl. unfold is_ascii, is_byte. intros; lia.
Qed.

(** ** The URL transform builder *)

Lemma encode_text_for_overlay_eq (text : str) (bs : bytes) :
  truthy text = true -> encode_utf8 text = Some bs ->
  encode_text_for_overlay text
  = Some (quote_from_bytes default_safe (b64encode bs)).
Proof.
  intros Ht Hbs. unfold encode_text_for_overlay. rewrite Ht, Hbs. cbn [negb].
  pose proof (b64encode_ascii bs (encode_utf8_is_byte _ _ Hbs)) as Ha.
  rewrite (decode_ascii_ascii _ Ha). unfold quote.
  now rewrite (encode_utf8_ascii _ Ha).
Qed.

Lemma decode_overlay_token_quote (bs : bytes) :
  Forall is_byte bs ->
  decode_overlay_token (quote_from_bytes default_safe (b64encode bs))
  = Some bs.
Proof.
  intros Hb. unfold decode_overlay_token, unquote_to_bytes.
  pose proof (ascii_is_byte _ (b64encode_ascii bs Hb)) as H64.
  rewrite (encode_utf8_ascii _ (quote_from_bytes_ascii _ H64)).
  rewrite (percent_decode_quote _ H64).
  now apply b64decode_b64encode.
Qed.

Lemma splice_long (url t : str) :
  truthy t = true ->
  5 <= Z.of_nat (List.length (split slash url)) ->
  splice url t
  = join [slash] (firstn 4 (split slash url)) ++ lit "/tr:" ++ t ++ [slash]
    ++ join [slash] (skipn 4 (split slash url)).
Proof.
  intros Ht Hl. unfold splice. rewrite Ht. cbn [negb].
  destruct (Z.ltb_spec (Z.of_nat (List.length (split slash url))) 5);
    [lia|reflexivity].
Qed.

Lemma splice_short (url t : str) :
  Z.of_nat (List.length (split slash url)) < 5 -> splice url t = url.
Proof.
  intros Hl. unfold splice. destruct (truthy t); cbn [negb]; [|reflexivity].
  destruct (Z.ltb_spec (Z.of_nat (List.length (split slash url))) 5);
    [reflexivity|lia].
Qed.

Lemma quote_escapes_plus_and_equals (bs : bytes) :
  Forall is_byte bs ->
  Forall (fun c => c <> 43 /\ c <> 61) (quote_from_bytes default_safe bs).
Proof.
  unfold quote_from_bytes.
  induction 1 as [|b bs Hb _ IH]; [constructor|].
  cbn [flat_map]. apply Forall_app; split; [|assumption].
  unfold quoter. unfold is_byte in Hb.
  destruct (always_safe b || default_safe b) eqn:Hs.
  - constructor; [|constructor]. revert Hs.
    unfold always_safe, default_safe. zcases; intros; try discriminate; lia.
  - repeat constructor; try lia; unfold hexdigit; zcases.
Qed.

Theorem caption_overrides_transform (url t1 t2 caption : str) :
  truthy caption = true ->
  create_transformed_url url t1 (Some caption)
  = create_transformed_url url t2 (Some caption).
Proof.
  intros Hc. unfold create_transformed_url. cbn [truthy_opt]. now rewrite Hc.
Qed.

(** Claim C1 does not hold of the code.  [encode_text_for_overlay] calls
    [urllib.parse.quote] with its default [safe='/'], so a ['/'] of the
    base64 text is copied, not percent-escaped (['+'] and ['='] are
    escaped, see [quote_escapes_plus_and_equals], and the transform
    argument is ignored, see [caption_overrides_transform]).  The caption
    [???] has the UTF-8 bytes 63 63 63 and the base64 text [Pz8/]; the
    token put in the URL is [Pz8/] again, and the transform segment of the
    result is cut in two by its slash. *)
Theorem overlay_token_keeps_slash :
  encode_utf8 (lit "???") = Some [63; 63; 63]
  /\ b64encode [63; 63; 63] = lit "Pz8/"
  /\ encode_text_for_overlay (lit "???") = Some (lit "Pz8/")
  /\ create_transformed_url (lit "https://ik.io/abc/d/e.jpg") (lit "w-10")
       (Some (lit "???"))
     = Some (lit "https://ik.io/abc/tr:l-text,ie-Pz8/,ly-N20,lx-20,fs-100,co-white,bg-000000A0,l-end/d/e.jpg").
Proof. repeat split; vm_compute; reflexivity. Qed.

(** Claim C6 does not hold of the code, by the slip of C1.  For the caption
    [???] the base64 text is [Pz8/] and [urllib.parse.quote] keeps its
    slash, so the transform segment of the built URL ends at that slash:
    it is [tr:l-text,ie-Pz8], the token a reader finds in it is [Pz8],
    and that token does not decode (three base64 digits), let alone to
    the bytes 63 63 63 of the caption.  ([embedded_token_round_trip]
    shows the round trip for the captions whose base64 text has no
    slash.) *)
Theorem embedded_token_cut_by_slash :
  encode_utf8 (lit "???") = Some [63; 63; 63]
  /\ exists out,
       create_transformed_url (lit "https://ik.io/abc/d/e.jpg") (lit "w-10")
         (Some (lit "???")) = Some out
       /\ transform_segment out = lit "tr:l-text,ie-Pz8"
       /\ embedded_token out = Some (lit "Pz8")
       /\ decode_overlay_token (lit "Pz8") = None.
Proof.
  split; [reflexivity|]. eexists. split; [reflexivity|].
  repeat split; vm_compute; reflexivity.
Qed.

(** Claim C5.  With an empty caption ([None] or the empty string), a
    non-empty transform and a URL that splits on ['/'] into five segments
    or more, [create_transformed_url] returns the first four segments
    joined by ['/'], then [/tr:] and the transform, then ['/'] and the
    remaining segments joined by ['/'].  In particular
    [https://ik.io/abc/d/e.jpg] with [w-10] gives
    [https://ik.io/abc/tr:w-10/d/e.jpg]. *)
Theorem splice_five_segments :
  (forall (url t : str) (caption : option str),
      truthy_opt caption = false -> truthy t = true ->
      5 <= Z.of_nat (List.length (split slash url)) ->
      create_transformed_url url t caption
      = Some (join [slash] (firstn 4 (split slash url)) ++ lit "/tr:" ++ t
              ++ [slash] ++ join [slash] (skipn 4 (split slash url))))
  /\ create_transformed_url (lit "https://ik.io/abc/d/e.jpg") (lit "w-10") None
     = Some (lit "https://ik.io/abc/tr:w-10/d/e.jpg").
Proof.
  split; [|reflexivity].
  intros url t caption Hc Ht Hl. unfold create_transformed_url. rewrite Hc.
  f_equal. now apply splice_long.
Qed.

Lemma splice_five_segments_witness :
  truthy_opt None = false /\ truthy (lit "w-10") = true
  /\ 5 <= Z.of_nat (List.length (split slash (lit "https://ik.io/abc/d/e.jpg")))
  /\ create_transformed_url (lit "https://ik.io/abc/d/e.jpg") (lit "w-10") None
     = Some (join [slash] (firstn 4 (split slash (lit "https://ik.io/abc/d/e.jpg")))
             ++ lit "/tr:" ++ lit "w-10" ++ [slash]
             ++ join [slash] (skipn 4 (split slash (lit "https://ik.io/abc/d/e.jpg")))).
Proof.
  assert (H5 : 5 <= Z.of_nat (List.length (split slash (lit "https://ik.io/abc/d/e.jpg"))))
    by (vm_compute; discriminate).
  split; [reflexivity|]. split; [reflexivity|]. split; [exact H5|].
  exact (proj1 splice_five_segments (lit "https://ik.io/abc/d/e.jpg") (lit "w-10")
           None eq_refl eq_refl H5).
Defined.

(** Claim C8.  A URL that splits on ['/'] into fewer than five segments
    is returned unchanged by [create_transformed_url] for every transform
    when no caption is given; the empty URL is such a URL. *)
Theorem short_url_unchanged :
  (forall url t : str,
      Z.of_nat (List.length (split slash url)) < 5 ->
      create_transformed_url url t None = Some url)
  /\ (forall t : str, create_transformed_url [] t None = Some []).
Proof.
  assert (H : forall url t : str,
             Z.of_nat (List.length (split slash url)) < 5 ->
             create_transformed_url url t None = Some url).
  { intros url t Hl. unfold create_transformed_url. cbn [truthy_opt].
    f_equal. now apply splice_short. }
  split; [exact H|]. intros t. apply H. cbn. lia.
Qed.

Lemma short_url_unchanged_witness :
  Z.of_nat (List.length (split slash (lit "https://ik.io/abc"))) < 5
  /\ create_transformed_url (lit "https://ik.io/abc") (lit "w-10") None
     = Some (lit "https://ik.io/abc").
Proof.
  assert (H : Z.of_nat (List.length (split slash (lit "https://ik.io/abc"))) < 5)
    by (vm_compute; reflexivity).
  split; [exact H|].
  exact (proj1 short_url_unchanged (lit "https://ik.io/abc") (lit "w-10") H).
Defined.

(** ** Invariants of the script *)

Section Preserves.
Variable P : World -> Prop.

Lemma preserves_ret {A} (a : A) : preserves P (ret a).
Proof. intros w H; exact H. Qed.

Lemma preserves_stop {A} (s : Signal) : preserves P (@stop A s).
Proof. intros w H; exact H. Qed.

Lemma preserves_get {A} (f : World -> A) : preserves P (get f).
Proof. intros w H; exact H. Qed.

Lemma preserves_bind {A B} (m : M A) (k : A -> M B) :
  preserves P m -> (forall a, preserves P (k a)) -> preserves P (bind m k).
Proof.
  intros Hm Hk w H. unfold bind. specialize (Hm w H).
  destruct (m w) as [a w'|s w']; cbn [world_of] in *; [now apply Hk|exact Hm].
Qed.

Lemma preserves_try_except {A} (body handler : M A) :
  preserves P body -> preserves P handler -> preserves P (try_except body handler).
Proof.
  intros Hb Hh w H. unfold try_except. specialize (Hb w H).
  destruct (body w) as [a w'|[e| | |] w']; cbn [world_of] in *;
    try exact Hb. now apply Hh.
Qed.

Lemma preserves_def (body : M unit) : preserves P body -> preserves P (def body).
Proof.
  intros Hb w H. unfold def. specialize (Hb w H).
  destruct (body w) as [a w'|[e| | |] w']; exact Hb.
Qed.

Lemma preserves_pass (body : M unit) : preserves P body -> preserves P (pass body).
Proof.
  intros Hb w H. unfold pass. specialize (Hb w H).
  destruct (body w) as [a w'|[e| | |] w']; exact Hb.
Qed.

Lemma preserves_for_each {A} (body : A -> M unit) (l : list A) :
  (forall x, In x l -> preserves P (body x)) -> preserves P (for_each body l).
Proof.
  induction l as [|x l IH]; intros Hb; cbn [for_each].
  - apply preserves_ret.
  - apply preserves_bind; [apply Hb; now left|].
    intros _. apply IH. intros y Hy. apply Hb. now right.
Qed.

Lemma preserves_json_of (resp : Response) : preserves P (json_of resp).
Proof. unfold json_of. destruct (json resp); intros w H; exact H. Qed.

Lemma preserves_draw (x : Widget) :
  (forall w, P w ->
     P (mkWorld (session_state w) (query_params w) (sent w) (screen w ++ [x]))) ->
  preserves P (draw x).
Proof. intros Hx w H. now apply Hx. Qed.

Lemma preserves_request (be : Backend) (r : Request) :
  (forall w, P w ->
     P (mkWorld (session_state w) (query_params w) (sent w ++ [r]) (screen w))) ->
  preserves P (request be r).
Proof.
  intros Hr w H. unfold request.
  destruct (be (sent w) r); cbn [world_of]; now apply Hr.
Qed.

Lemma preserves_set_session (f : SessionState -> SessionState) :
  (forall w, P w ->
     P (mkWorld (f (session_state w)) (query_params w) (sent w) (screen w))) ->
  preserves P (set_session f).
Proof. intros Hf w H. now apply Hf. Qed.

Lemma preserves_set_query_params (t : option str) :
  (forall w, P w -> P (mkWorld (session_state w) t (sent w) (screen w))) ->
  preserves P (experimental_set_query_params t).
Proof. intros Ht w H. now apply Ht. Qed.

End Preserves.

(** Walks through a block of the script, leaving the conditions on its
    primitive steps. *)
Ltac walk :=
  repeat first
    [ apply preserves_ret | apply preserves_stop | apply preserves_get
    | apply preserves_json_of
    | apply preserves_bind; [|intro]
    | apply preserves_try_except
    | apply preserves_def | apply preserves_pass
    | match goal with
      | |- preserves _ (if ?b then _ else _) => destruct b eqn:?
      | |- preserves _ (match ?x with _ => _ end) => destruct x eqn:?
      end ].

Ltac open_script :=
  unfold script, main, login_page, upload_page, feed_page, login_clicked,
    signup_clicked, render_post, delete_column, reconcile, restore_token,
    get_headers, button, transformed, detail_of, posts_of,
    set_token, set_user, set_last_token_check_failed.

(** *** The flag [last_token_check_failed] is never reset *)

Ltac flag_steps :=
  walk;
  try (apply preserves_draw; intros ? Hflag; exact Hflag);
  try (apply preserves_request; intros ? Hflag; exact Hflag);
  try (apply preserves_set_query_params; intros ? Hflag; exact Hflag);
  try (apply preserves_set_session; intros ? Hflag;
       first [exact Hflag | reflexivity]).

Lemma script_keeps_check_failed (be : Backend) (inp : Inputs) :
  preserves check_failed (script be inp).
Proof.
  open_script. flag_steps.
  all: apply preserves_for_each; intros; open_script; flag_steps.
Qed.

Lemma run_keeps_check_failed (be : Backend) (inp : Inputs) (w : World) :
  check_failed w -> check_failed (world_of (run be inp w)).
Proof. intros H. unfold run. now apply script_keeps_check_failed. Qed.

Lemma interact_keeps_check_failed (be : Backend) (inp : Inputs) (w : World) :
  check_failed w -> check_failed (world_of (interact be inp w)).
Proof.
  intros H. unfold interact.
  pose proof (run_keeps_check_failed be inp w H) as H1.
  destruct (run be inp w) as [a w'|[e| | |] w']; try exact H1.
  now apply run_keeps_check_failed.
Qed.

Lemma after_keeps_check_failed (be : Backend) (inps : list Inputs) (w : World) :
  check_failed w -> check_failed (after be inps w).
Proof.
  revert w. induction inps as [|inp inps IH]; intros w H; [exact H|].
  cbn [after fold_left]. apply IH. now apply interact_keeps_check_failed.
Qed.

(** With the flag set, lines 23-48 send nothing. *)
Lemma prelude_idle (be : Backend) (w : World) :
  check_failed w ->
  sent (world_of ((restore_token ;; reconcile be) w)) = sent w.
Proof.
  unfold check_failed. destruct w as [[tok usr flag] qp log scr].
  cbn [session_state last_token_check_failed]. intros ->.
  destruct qp as [[|c' t]|], tok as [[|c tok]|], usr; reflexivity.
Qed.

(** ** The session controller *)

(** Runs the control operators of a block on the world at hand. *)
Ltac exec :=
  cbv beta iota zeta delta
    [bind ret get stop try_except def pass request json_of draw button
     set_session set_token set_user set_last_token_check_failed
     experimental_set_query_params get_headers];
  cbn [session_state query_params sent screen token user
       last_token_check_failed truthy_opt truthy negb andb world_of widget_id
       status_code json text clicked email_input password_input feed_chosen
       uploaded_file caption_input].

Lemma reconcile_total (be : Backend) (w : World) :
  exists w', reconcile be w = Done tt w'.
Proof.
  destruct w as [[tok usr flag] qp log scr].
  unfold reconcile.
  destruct tok as [[|c tok]|], usr, flag; exec; try (now eexists).
  destruct (be log _) as [resp|]; exec; [|now eexists].
  destruct (_ =? 200); exec; [|now eexists].
  destruct resp as [st [[]|] tx]; exec; now eexists.
Qed.

Lemma pages_keep_session (be : Backend) (inp : Inputs) (s : SessionState)
    (q : option str) :
  preserves (session_is s q) (feed_page be inp)
  /\ preserves (session_is s q) (upload_page be inp).
Proof.
  split; open_script; walk;
    try (apply preserves_draw; intros ? Hs; exact Hs);
    try (apply preserves_request; intros ? Hs; exact Hs).
  all: apply preserves_for_each; intros; open_script; walk;
    try (apply preserves_draw; intros ? Hs; exact Hs);
    try (apply preserves_request; intros ? Hs; exact Hs).
Qed.

Lemma main_shell (be : Backend) (inp : Inputs) (w : World) (u : UserIdentity) :
  user (session_state w) = Some u -> clicked inp = None ->
  main be inp w
  = (if feed_chosen inp then feed_page be inp else upload_page be inp)
      (mkWorld (session_state w) (query_params w) (sent w)
         ((((screen w
            ++ [SidebarTitle (waving_hand ++ lit " Hi " ++ email u ++ lit "!")])
           ++ [Button logout_label None]) ++ [Markdown (lit "---")])
          ++ [Radio (lit "Navigate:")])).
Proof.
  intros Hu Hc. unfold main, bind, get, button, draw, ret.
  rewrite Hu, Hc. reflexivity.
Qed.

(** Claim C3.  On a new load whose query parameters carry a non-empty
    token [t], if [/users/me] answers with a status other than 200, lines
    23-48 end with the token and the user cleared, the query parameters
    cleared and [last_token_check_failed] set, after exactly one request.
    From then on, after any sequence of interactions with any backend,
    lines 23-48 of a run send nothing: the identity fetch of the
    reconcile block does not fire again in this session. *)
Theorem failed_verification_clears_session
    (be : Backend) (t : str) (resp : Response) :
  truthy t = true ->
  be [] (identity_request (Some t) (Some 5)) = Returns resp ->
  status_code resp <> 200 ->
  let w1 := mkWorld (mkSession None None true) None
                    [identity_request (Some t) (Some 5)] [] in
  prelude be (new_load (Some t)) = Done tt w1
  /\ forall (be' be'' : Backend) (inps : list Inputs),
       sent (world_of (prelude be'' (after be' inps w1)))
       = sent (after be' inps w1).
Proof.
  intros Ht Hbe Hst w1. split.
  - destruct t as [|c t]; [discriminate|].
    unfold prelude, new_load, initial_session, restore_token, reconcile.
    exec. unfold identity_request in Hbe. rewrite Hbe.
    apply Z.eqb_neq in Hst. exec. rewrite Hst. reflexivity.
  - intros be' be'' inps. apply prelude_idle.
    apply after_keeps_check_failed. reflexivity.
Qed.

Lemma failed_verification_clears_session_witness :
  let be : Backend := fun _ _ => Returns (mkResponse 401 None []) in
  let w1 := mkWorld (mkSession None None true) None
                    [identity_request (Some (lit "tok")) (Some 5)] [] in
  prelude be (new_load (Some (lit "tok"))) = Done tt w1
  /\ forall (be' be'' : Backend) (inps : list Inputs),
       sent (world_of (prelude be'' (after be' inps w1)))
       = sent (after be' inps w1).
Proof.
  intros be.
  apply (failed_verification_clears_session be (lit "tok")
           (mkResponse 401 None [])); [reflexivity|reflexivity|discriminate].
Defined.

(** Claim C4.  When the session has a non-empty token, no user and the
    flag unset, and the identity fetch of the reconcile block raises a
    transport exception, the block ends normally with the token, the user
    and the query parameters as they were and [last_token_check_failed]
    set; after any later interactions lines 23-48 send nothing. *)
Theorem transport_failure_keeps_token (be : Backend) (w : World) :
  truthy_opt (token (session_state w)) = true ->
  user (session_state w) = None ->
  last_token_check_failed (session_state w) = false ->
  be (sent w) (identity_request (token (session_state w)) (Some 5)) = Raises ->
  exists w',
    reconcile be w = Done tt w'
    /\ token (session_state w') = token (session_state w)
    /\ user (session_state w') = user (session_state w)
    /\ query_params w' = query_params w
    /\ last_token_check_failed (session_state w') = true
    /\ sent w' = sent w ++ [identity_request (token (session_state w)) (Some 5)]
    /\ forall (be' be'' : Backend) (inps : list Inputs),
         sent (world_of (prelude be'' (after be' inps w')))
         = sent (after be' inps w').
Proof.
  intros Ht Hu Hf Hbe.
  destruct w as [[tok usr flag] qp log scr].
  cbn [session_state token user last_token_check_failed sent] in *. subst.
  destruct tok as [[|c tok]|]; try discriminate.
  eexists. split.
  - unfold reconcile. exec. unfold identity_request in Hbe. rewrite Hbe.
    reflexivity.
  - cbn [session_state token user last_token_check_failed sent query_params].
    repeat split.
    intros be' be'' inps. apply prelude_idle.
    apply after_keeps_check_failed. reflexivity.
Qed.

Lemma transport_failure_keeps_token_witness :
  let be : Backend := fun _ _ => Raises in
  let w := mkWorld (mkSession (Some (lit "tok")) None false)
                   (Some (lit "tok")) [] [] in
  exists w',
    reconcile be w = Done tt w'
    /\ token (session_state w') = token (session_state w)
    /\ user (session_state w') = user (session_state w)
    /\ query_params w' = query_params w
    /\ last_token_check_failed (session_state w') = true
    /\ sent w' = sent w ++ [identity_request (token (session_state w)) (Some 5)]
    /\ forall (be' be'' : Backend) (inps : list Inputs),
         sent (world_of (prelude be'' (after be' inps w')))
         = sent (after be' inps w').
Proof.
  intros be w.
  apply (transport_failure_keeps_token be w); reflexivity.
Defined.

Lemma login_post_failure_caught (be : Backend) (email password : str)
    (w : World) :
  be (sent w) (login_request email password) = Raises ->
  login_clicked be email password w
  = Stop Return
      (mkWorld (session_state w) (query_params w)
         (sent w ++ [login_request email password])
         (screen w
          ++ [ErrorMsg (lit "Could not contact backend. Is the API running?")])).
Proof.
  intros Hbe. unfold login_clicked, login_request in *. exec.
  rewrite Hbe. reflexivity.
Qed.

Lemma signup_post_failure_caught (be : Backend) (email password : str)
    (w : World) :
  be (sent w) (signup_request email password) = Raises ->
  signup_clicked be email password w
  = Stop Return
      (mkWorld (session_state w) (query_params w)
         (sent w ++ [signup_request email password])
         (screen w
          ++ [ErrorMsg (lit "Could not contact backend. Is the API running?")])).
Proof.
  intros Hbe. unfold signup_clicked, signup_request in *. exec.
  rewrite Hbe. reflexivity.
Qed.

(** Claim C2 does not hold of the code.  The identity fetch of line 106,
    inside the Login handler, is the one call of [requests] outside a
    [try]: when the backend accepts the login and then cannot be reached,
    the transport exception leaves [login_page] and the whole run.  (The
    login POST, the sign-up POST and the reconcile block catch theirs, see
    [login_post_failure_caught], [signup_post_failure_caught] and
    [reconcile_total].) *)
Theorem login_identity_fetch_uncaught :
  interact down_after_login login_click (new_load None)
  = Stop (Raise TransportError)
      (mkWorld (mkSession (Some (lit "tok")) None false) (Some (lit "tok"))
         [login_request (lit "a@b.c") (lit "pw");
          identity_request (Some (lit "tok")) None]
         [Title (rocket ++ lit " Welcome to Simple Social");
          TextInput (lit "Email:"); TextInput (lit "Password:");
          Button login_label None]).
Proof. vm_compute. reflexivity. Qed.

Lemma login_label_clicked : str_eqb login_label login_label = true.
Proof. reflexivity. Qed.

Lemma signup_not_login : str_eqb login_label signup_label = false.
Proof. reflexivity. Qed.

(** A run of a session without token, user or carrier goes straight to
    the login page. *)
Lemma run_login_page (be : Backend) (inp : Inputs) (w : World) :
  token (session_state w) = None ->
  user (session_state w) = None ->
  query_params w = None ->
  run be inp w = login_page be inp (clear_screen w).
Proof.
  destruct w as [[tk usr flag] qp log scr].
  cbn [session_state token user query_params]. intros -> -> ->.
  unfold run, script, restore_token, reconcile, main, clear_screen. exec.
  reflexivity.
Qed.

(** The run [st.rerun()] starts after a login shows the shell, whose
    pages leave the session and the query parameters alone. *)
Lemma rerun_keeps_session (be : Backend) (inp : Inputs) (w : World)
    (tok : str) (u : UserIdentity) :
  token (session_state w) = Some tok ->
  user (session_state w) = Some u ->
  query_params w = Some tok ->
  session_is (session_state w) (query_params w)
    (world_of (run be (unclicked inp) w)).
Proof.
  destruct w as [[tk usr flag] qp log scr].
  cbn [session_state token user query_params]. intros -> -> ->.
  unfold run, script.
  assert (Hpre : (restore_token ;; reconcile be ;; main be (unclicked inp))
                   (clear_screen
                      (mkWorld (mkSession (Some tok) (Some u) flag) (Some tok)
                               log scr))
                 = main be (unclicked inp)
                     (clear_screen
                        (mkWorld (mkSession (Some tok) (Some u) flag)
                                 (Some tok) log scr))).
  { unfold restore_token, reconcile, clear_screen. exec.
    destruct tok; reflexivity. }
  rewrite Hpre. rewrite (main_shell be _ _ u) by reflexivity.
  destruct (pages_keep_session be (unclicked inp)
              (mkSession (Some tok) (Some u) flag) (Some tok)) as [Hf Hup].
  destruct (feed_chosen (unclicked inp)); [apply Hf|apply Hup];
    split; reflexivity.
Qed.

Section LoginClick.
Variables (be : Backend) (inp : Inputs) (w : World) (tok txt1 : str).
Hypothesis email_typed : truthy (email_input inp) = true.
Hypothesis password_typed : truthy (password_input inp) = true.
Hypothesis login_pressed : clicked inp = Some login_label.
Hypothesis login_accepted :
  be (sent w) (login_request (email_input inp) (password_input inp))
  = Returns (mkResponse 200 (Some (JToken tok)) txt1).

Let sent_after : list Request :=
  (sent w ++ [login_request (email_input inp) (password_input inp)])
  ++ [identity_request (bearer_of tok) None].

Let login_form : list Widget :=
  [Title (rocket ++ lit " Welcome to Simple Social");
   TextInput (lit "Email:"); TextInput (lit "Password:");
   Button login_label None].

Lemma login_page_success (u : UserIdentity) (txt2 : str) :
  be (sent w ++ [login_request (email_input inp) (password_input inp)])
     (identity_request (bearer_of tok) None)
  = Returns (mkResponse 200 (Some (JUser u)) txt2) ->
  login_page be inp w
  = Stop Rerun
      (mkWorld (mkSession (Some tok) (Some u)
                          (last_token_check_failed (session_state w)))
               (Some tok) sent_after (screen w ++ login_form)).
Proof.
  intros Hme. subst sent_after login_form.
  destruct w as [[tk usr flag] qp log scr].
  destruct inp as [em pw cl fc uf ci].
  cbn [session_state last_token_check_failed sent screen
       email_input password_input clicked] in *.
  subst cl.
  destruct em as [|e0 em]; [discriminate|].
  destruct pw as [|p0 pw]; [discriminate|].
  unfold login_request, identity_request in *.
  unfold login_page, login_clicked.
  exec. rewrite login_label_clicked. exec. rewrite login_accepted. exec.
  change (200 =? 200) with true. exec.
  fold (bearer_of tok). rewrite Hme. exec.
  change (200 =? 200) with true. exec.
  repeat rewrite <- app_assoc. reflexivity.
Qed.

Lemma login_page_rejected (resp : Response) :
  be (sent w ++ [login_request (email_input inp) (password_input inp)])
     (identity_request (bearer_of tok) None)
  = Returns resp ->
  status_code resp <> 200 ->
  login_page be inp w
  = Done tt
      (mkWorld (mkSession (Some tok) (user (session_state w))
                          (last_token_check_failed (session_state w)))
               (Some tok) sent_after
               (screen w ++ login_form
                ++ [ErrorMsg (lit "Failed to get user info");
                    Button signup_label None])).
Proof.
  intros Hme Hst. subst sent_after login_form.
  destruct w as [[tk usr flag] qp log scr].
  destruct inp as [em pw cl fc uf ci].
  cbn [session_state last_token_check_failed sent screen user
       email_input password_input clicked] in *.
  subst cl.
  destruct em as [|e0 em]; [discriminate|].
  destruct pw as [|p0 pw]; [discriminate|].
  unfold login_request, identity_request in *.
  apply Z.eqb_neq in Hst.
  unfold login_page, login_clicked.
  exec. rewrite login_label_clicked. exec. rewrite login_accepted. exec.
  change (200 =? 200) with true. exec.
  fold (bearer_of tok). rewrite Hme. exec. rewrite Hst. exec.
  rewrite signup_not_login.
  repeat rewrite <- app_assoc. reflexivity.
Qed.

End LoginClick.

(** Claim C7.  With both credentials typed and Login pressed, if the
    login POST answers 200 with [access_token = tok] and the identity
    fetch that follows answers 200 with the identity [u], then from any
    session [login_page] sends those two requests, puts the token in the
    query parameters and ends in [st.rerun()] with the session
    [Authenticated] and user [u], so with the e-mail address of the
    backend's answer; the run [st.rerun()] starts keeps the session and
    the query parameters.  From a session without token, user or carrier
    the whole interaction (the run of the click and its rerun) ends in
    that state. *)
Theorem login_reaches_authenticated
    (be : Backend) (inp : Inputs) (w : World) (tok txt1 txt2 : str)
    (u : UserIdentity) :
  truthy (email_input inp) = true ->
  truthy (password_input inp) = true ->
  clicked inp = Some login_label ->
  be (sent w) (login_request (email_input inp) (password_input inp))
  = Returns (mkResponse 200 (Some (JToken tok)) txt1) ->
  be (sent w ++ [login_request (email_input inp) (password_input inp)])
     (identity_request (bearer_of tok) None)
  = Returns (mkResponse 200 (Some (JUser u)) txt2) ->
  (exists w1,
      login_page be inp w = Stop Rerun w1
      /\ sent w1
         = sent w ++ [login_request (email_input inp) (password_input inp);
                      identity_request (bearer_of tok) None]
      /\ query_params w1 = Some tok
      /\ session_state w1
         = mkSession (Some tok) (Some u)
                     (last_token_check_failed (session_state w))
      /\ state_of (session_state w1) = Authenticated
      /\ option_map email (user (session_state w1)) = Some (email u)
      /\ forall be' : Backend,
           session_is (session_state w1) (query_params w1)
             (world_of (run be' (unclicked inp) w1)))
  /\ (token (session_state w) = None ->
      user (session_state w) = None ->
      query_params w = None ->
      let w' := world_of (interact be inp w) in
      query_params w' = Some tok
      /\ session_state w'
         = mkSession (Some tok) (Some u)
                     (last_token_check_failed (session_state w))
      /\ state_of (session_state w') = Authenticated
      /\ option_map email (user (session_state w')) = Some (email u)).
Proof.
  intros He Hp Hc Hlogin Hme. split.
  - eexists. split.
    + exact (login_page_success be inp w tok txt1 He Hp Hc Hlogin u txt2 Hme).
    + cbn [sent query_params session_state user].
      split; [now rewrite <- app_assoc|]. do 4 (split; [reflexivity|]).
      intros be'.
      match goal with
      | |- session_is _ _ (world_of (run _ _ ?w1)) =>
          exact (rerun_keeps_session be' inp w1 tok u eq_refl eq_refl eq_refl)
      end.
  - intros Ht Hu Hq w'. subst w'. unfold interact.
    rewrite (run_login_page be inp w Ht Hu Hq).
    assert (Hlogin' : be (sent (clear_screen w))
                        (login_request (email_input inp) (password_input inp))
                      = Returns (mkResponse 200 (Some (JToken tok)) txt1))
      by exact Hlogin.
    rewrite (login_page_success be inp (clear_screen w) tok txt1 He Hp Hc
               Hlogin' u txt2 Hme).
    match goal with
    | |- context [run be (unclicked inp) ?w1] =>
        destruct (rerun_keeps_session be inp w1 tok u eq_refl eq_refl eq_refl)
          as [Hs Hqp]
    end.
    cbn [session_state query_params] in Hs, Hqp.
    rewrite Hs, Hqp. repeat split.
Qed.

Lemma login_reaches_authenticated_witness :
  let w' := world_of (interact accepting_backend login_click (new_load None)) in
  query_params w' = Some (lit "tok")
  /\ session_state w'
     = mkSession (Some (lit "tok")) (Some (mkUser (lit "a@b.c") [])) false
  /\ state_of (session_state w') = Authenticated
  /\ option_map email (user (session_state w')) = Some (lit "a@b.c").
Proof.
  exact (proj2 (login_reaches_authenticated accepting_backend login_click
                  (new_load None) (lit "tok") [] [] (mkUser (lit "a@b.c") [])
                  eq_refl eq_refl eq_refl eq_refl eq_refl)
               eq_refl eq_refl eq_refl).
Defined.

(** Claim C10.  As in C7, but the identity fetch answers with a status
    other than 200: [login_page] ends normally, the session token is
    [tok] and it is in the query parameters, the user and the flag
    [last_token_check_failed] are as they were, and the login form gets
    the one message [Failed to get user info].  From a session without
    token, user or carrier the interaction ends in that state, which is
    [PendingVerification] when the flag was unset, and a next load
    restores the token from the query parameters into
    [PendingVerification]. *)
Theorem login_identity_rejected
    (be : Backend) (inp : Inputs) (w : World) (tok txt1 : str)
    (resp : Response) :
  truthy (email_input inp) = true ->
  truthy (password_input inp) = true ->
  clicked inp = Some login_label ->
  be (sent w) (login_request (email_input inp) (password_input inp))
  = Returns (mkResponse 200 (Some (JToken tok)) txt1) ->
  be (sent w ++ [login_request (email_input inp) (password_input inp)])
     (identity_request (bearer_of tok) None)
  = Returns resp ->
  status_code resp <> 200 ->
  (exists w1,
      login_page be inp w = Done tt w1
      /\ session_state w1
         = mkSession (Some tok) (user (session_state w))
                     (last_token_check_failed (session_state w))
      /\ query_params w1 = Some tok
      /\ screen w1
         = screen w
           ++ [Title (rocket ++ lit " Welcome to Simple Social");
               TextInput (lit "Email:"); TextInput (lit "Password:");
               Button login_label None;
               ErrorMsg (lit "Failed to get user info");
               Button signup_label None])
  /\ (token (session_state w) = None ->
      user (session_state w) = None ->
      query_params w = None ->
      exists w',
        interact be inp w = Done tt w'
        /\ session_state w'
           = mkSession (Some tok) None
                       (last_token_check_failed (session_state w))
        /\ query_params w' = Some tok
        /\ screen w'
           = [Title (rocket ++ lit " Welcome to Simple Social");
              TextInput (lit "Email:"); TextInput (lit "Password:");
              Button login_label None;
              ErrorMsg (lit "Failed to get user info");
              Button signup_label None]
        /\ (last_token_check_failed (session_state w) = false ->
            state_of (session_state w') = PendingVerification)
        /\ state_of (session_state
                       (world_of (restore_token (new_load (query_params w')))))
           = PendingVerification).
Proof.
  intros He Hp Hc Hlogin Hme Hst. split.
  - eexists. split.
    + exact (login_page_rejected be inp w tok txt1 He Hp Hc Hlogin resp Hme Hst).
    + cbn [session_state query_params screen]. repeat split.
  - intros Ht Hu Hq. eexists. split.
    + unfold interact. rewrite (run_login_page be inp w Ht Hu Hq).
      assert (Hlogin' : be (sent (clear_screen w))
                          (login_request (email_input inp) (password_input inp))
                        = Returns (mkResponse 200 (Some (JToken tok)) txt1))
        by exact Hlogin.
      rewrite (login_page_rejected be inp (clear_screen w) tok txt1 He Hp Hc
                 Hlogin' resp Hme Hst).
      reflexivity.
    + cbn [session_state query_params screen clear_screen user
           last_token_check_failed app].
      rewrite Hu. repeat split. intros ->. reflexivity.
Qed.

Lemma login_identity_rejected_witness :
  exists w',
    interact rejecting_identity login_click (new_load None) = Done tt w'
    /\ session_state w' = mkSession (Some (lit "tok")) None false
    /\ query_params w' = Some (lit "tok")
    /\ screen w'
       = [Title (rocket ++ lit " Welcome to Simple Social");
          TextInput (lit "Email:"); TextInput (lit "Password:");
          Button login_label None;
          ErrorMsg (lit "Failed to get user info");
          Button signup_label None]
    /\ (false = false -> state_of (session_state w') = PendingVerification)
    /\ state_of (session_state
                   (world_of (restore_token (new_load (query_params w')))))
       = PendingVerification.
Proof.
  refine (proj2 (login_identity_rejected rejecting_identity login_click
                   (new_load None) (lit "tok") [] (mkResponse 401 None [])
                   eq_refl eq_refl eq_refl eq_refl eq_refl _)
                eq_refl eq_refl eq_refl).
  discriminate.
Defined.

(** ** The feed and its delete buttons *)

Lemma or_default_owner (p : Post) :
  or_default (is_owner p) false = true -> is_owner p = Some true.
Proof. destruct (is_owner p) as [[]|]; cbn; congruence. Qed.

Ltac not_a_button :=
  apply preserves_draw; intros ? [Hr Hb]; split; [exact Hr|];
  cbn [screen sent]; intros ? Hin Hbtn; apply in_app_or in Hin as [Hin|[<-|[]]];
  [now apply Hb | destruct Hbtn as (? & ? & ?); discriminate].

Lemma render_post_owner_only
    (be : Backend) (inp : Inputs) (posts : list Post) (w0 : World) (p : Post) :
  In p posts -> preserves (only_owner_deletes posts w0) (render_post be inp p).
Proof.
  intros Hp. open_script. walk; try not_a_button.
  - apply preserves_draw. intros ? [Hr Hb]; split; [exact Hr|].
    cbn [screen sent]. intros ? Hin Hbtn.
    apply in_app_or in Hin as [Hin|[<-|[]]]; [now apply Hb|].
    right. exists p. auto using or_default_owner.
  - apply preserves_request. intros ? [Hr Hb]; split; [|exact Hb].
    cbn [screen sent]. intros ? Hin.
    apply in_app_or in Hin as [Hin|[<-|[]]]; [now apply Hr|].
    right. exists p. cbn [method endpoint]. auto using or_default_owner.
Qed.

Lemma render_post_not_owner
    (be : Backend) (inp : Inputs) (w0 : World) (p : Post) :
  or_default (is_owner p) false = false ->
  preserves (only_owner_deletes [] w0) (render_post be inp p).
Proof.
  intros Hp. unfold render_post, delete_column. rewrite Hp.
  open_script. walk; not_a_button.
Qed.

Lemma only_owner_deletes_refl (posts : list Post) (w : World) :
  only_owner_deletes posts w w.
Proof. split; intros; now left. Qed.

Lemma world_of_def (m : M unit) (w : World) :
  world_of (def m w) = world_of (m w).
Proof. unfold def. destruct (m w) as [a w'|[e| | |] w']; reflexivity. Qed.

Lemma feed_loop_owner_only
    (be : Backend) (inp : Inputs) (posts : list Post) (w0 : World) :
  only_owner_deletes posts w0
    (world_of (for_each (render_post be inp) posts w0)).
Proof.
  apply (preserves_for_each (only_owner_deletes posts w0)).
  - intros p Hp. now apply render_post_owner_only.
  - apply only_owner_deletes_refl.
Qed.

(** Claim C9.  Rendering a post whose [is_owner] is false or absent sends
    no request and draws no button.  In a whole [feed_page], every request
    sent is the feed fetch or a DELETE of a post of the fetched list whose
    [is_owner] is true, and every button drawn is the delete button of
    such a post. *)
Theorem delete_only_for_owner (be : Backend) (inp : Inputs) (w : World) :
  (forall p : Post,
      or_default (is_owner p) false = false ->
      let w' := world_of (render_post be inp p w) in
      (forall r, In r (sent w') -> In r (sent w))
      /\ (forall x, In x (screen w') -> is_button x -> In x (screen w)))
  /\ (let w' := world_of (feed_page be inp w) in
      (forall r, In r (sent w') ->
         In r (sent w) \/ r = feed_request w \/ owner_delete (feed_posts be w) r)
      /\ (forall x, In x (screen w') -> is_button x ->
            In x (screen w) \/ owner_button (feed_posts be w) x)).
Proof.
  split.
  - intros p Hp w'.
    destruct (render_post_not_owner be inp w p Hp w
                (only_owner_deletes_refl [] w)) as [Hr Hb].
    fold w' in Hr, Hb. split.
    + intros r Hin. destruct (Hr r Hin) as [H|(q & [] & _)]. exact H.
    + intros x Hin Hx. destruct (Hb x Hin Hx) as [H|(q & [] & _)]. exact H.
  - intros w'. subst w'. unfold feed_page. rewrite world_of_def.
    destruct w as [[tok usr flag] qp log scr].
    unfold feed_posts, feed_request. exec.
    assert (Hplain : forall (extra : list Widget) (ps : list Post),
               Forall (fun x => ~ is_button x) extra ->
               (forall r, In r (log ++ [mkRequest GET Feed
                                          (if truthy_opt tok then tok else None)
                                          NoPayload (Some 8)]) ->
                  In r log
                  \/ r = mkRequest GET Feed
                           (if truthy_opt tok then tok else None)
                           NoPayload (Some 8)
                  \/ owner_delete ps r)
               /\ (forall x, In x ((scr ++ [Title (house ++ lit " Feed")]) ++ extra) ->
                     is_button x -> In x scr \/ owner_button ps x)).
    { intros extra ps Hex. split.
      - intros r Hin. apply in_app_or in Hin as [Hin|[<-|[]]]; auto.
      - intros x Hin Hx. left.
        apply in_app_or in Hin as [Hin|Hin].
        + apply in_app_or in Hin as [Hin|[<-|[]]]; [exact Hin|].
          destruct Hx as (? & ? & ?); discriminate.
        + rewrite Forall_forall in Hex. now destruct (Hex x Hin). }
    assert (Hmsg : forall x, (exists s, x = ErrorMsg s \/ x = InfoMsg s) ->
                             Forall (fun x => ~ is_button x) [x]).
    { intros x (s & [->| ->]); repeat constructor;
        intros (? & ? & ?); discriminate. }
    destruct (be log _) as [[st js tx]|]; exec.
    2:{ apply Hplain, Hmsg. eauto. }
    destruct (st =? 200); exec.
    2:{ apply Hplain, Hmsg. eauto. }
    destruct js as [j|]; exec.
    2:{ rewrite <- (app_nil_r (scr ++ _)). apply Hplain. constructor. }
    destruct j as [t|u|[ps|]|d|]; unfold posts_of; exec;
      try (apply Hplain, Hmsg; eauto);
      try (rewrite <- (app_nil_r (scr ++ _)); apply Hplain; constructor).
    destruct ps as [|p ps]; [apply Hplain, Hmsg; eauto|].
    match goal with
    | |- context [for_each _ _ ?w2] =>
        destruct (feed_loop_owner_only be inp (p :: ps) w2) as [Hr Hb]
    end.
    cbn [sent screen] in Hr, Hb. split.
    + intros r Hin. destruct (Hr r Hin) as [H|H]; [|auto].
      apply in_app_or in H as [H|[<-|[]]]; auto.
    + intros x Hin Hx. destruct (Hb x Hin Hx) as [H|H]; [|auto].
      apply in_app_or in H as [H|[<-|[]]]; [auto|].
      destruct Hx as (? & ? & ?); discriminate.
Qed.

Lemma delete_only_for_owner_witness :
  let p := mkPost (lit "p1") None None None None None (Some false) in
  let w' := world_of (render_post (fun _ _ => Raises)
                        (mkInputs [] [] (Some (delete_key p)) true None [])
                        p (new_load None)) in
  (forall r, In r (sent w') -> In r (sent (new_load None)))
  /\ (forall x, In x (screen w') -> is_button x ->
                In x (screen (new_load None))).
Proof.
  intros p.
  exact (proj1 (delete_only_for_owner (fun _ _ => Raises)
                  (mkInputs [] [] (Some (delete_key p)) true None [])
                  (new_load None)) p eq_refl).
Defined.

(* ================================================================== *)
(** * Further properties *)

(** ** More on the URL transform builder *)

Lemma split_segments_no_sep (sep : Z) (s : str) :
  Forall (fun p => ~ In sep p) (split sep s).
Proof.
  induction s as [|c s IH]; cbn [split].
  - repeat constructor. intros [].
  - destruct (Z.eqb_spec c sep) as [->|Hc].
    + constructor; [intros []|exact IH].
    + destruct (split sep s) as [|p ps]; [repeat constructor|].
      * intros [H|[]]. congruence.
      * inversion IH as [|? ? Hp Hps]; subst. constructor; [|exact Hps].
        intros [H|H]; [congruence|now apply Hp].
Qed.

Lemma join_app (sep : Z) (l1 l2 : list str) :
  l1 <> [] -> l2 <> [] ->
  join [sep] (l1 ++ l2) = join [sep] l1 ++ sep :: join [sep] l2.
Proof.
  induction l1 as [|p l1 IH]; intros H1 H2; [congruence|].
  destruct l1 as [|q l1].
  - cbn [app]. now rewrite join_cons.
  - change ((p :: q :: l1) ++ l2) with (p :: ((q :: l1) ++ l2)).
    rewrite join_cons by discriminate.
    rewrite IH by (discriminate || assumption).
    rewrite (join_cons sep p (q :: l1)) by discriminate.
    now rewrite <- app_assoc.
Qed.

Lemma long_url_parts (url : str) :
  5 <= Z.of_nat (List.length (split slash url)) ->
  firstn 4 (split slash url) <> [] /\ skipn 4 (split slash url) <> []
  /\ url = join [slash] (firstn 4 (split slash url)) ++ [slash]
           ++ join [slash] (skipn 4 (split slash url)).
Proof.
  intros Hl.
  destruct (split slash url) as [|a [|b [|c [|d [|e rest]]]]] eqn:Hs;
    cbn [List.length] in Hl; try lia.
  repeat split; try discriminate.
  rewrite <- Hs. rewrite (join_firstn_skipn slash 4).
  - symmetry. apply join_split.
  - rewrite Hs. cbn [List.length]. lia.
Qed.

(** X1.  With no caption (None or the empty string),
    create_transformed_url returns the URL unchanged exactly when the
    transform is empty or the URL has fewer than five '/'-separated
    segments; in every other case the result differs from the URL. *)
Theorem builder_changes_url_iff (url t : str) (caption : option str) :
  truthy_opt caption = false ->
  (create_transformed_url url t caption = Some url
   <-> truthy t = false \/ Z.of_nat (List.length (split slash url)) < 5).
Proof.
  intros Hc. unfold create_transformed_url. rewrite Hc. split.
  - intros H. injection H as H.
    destruct (truthy t) eqn:Ht; [|now left]. right.
    destruct (Z.ltb_spec (Z.of_nat (List.length (split slash url))) 5) as [|Hl];
      [assumption|exfalso].
    rewrite (splice_long url t Ht Hl) in H.
    destruct (long_url_parts url Hl) as (_ & _ & Hu).
    rewrite Hu in H at 3. apply (f_equal (@List.length Z)) in H.
    repeat rewrite length_app in H. cbn [List.length] in H.
    change (List.length (lit "/tr:")) with 4%nat in H. lia.
  - intros [Ht|Hl]; f_equal.
    + unfold splice. now rewrite Ht.
    + now apply splice_short.
Qed.

Lemma builder_changes_url_iff_witness :
  create_transformed_url (lit "a/b") (lit "w-10") None = Some (lit "a/b")
  <-> truthy (lit "w-10") = false
      \/ Z.of_nat (List.length (split slash (lit "a/b"))) < 5.
Proof. exact (builder_changes_url_iff (lit "a/b") (lit "w-10") None eq_refl). Defined.

Lemma splice_segments (url t : str) :
  truthy t = true -> ~ In slash t ->
  5 <= Z.of_nat (List.length (split slash url)) ->
  split slash (splice url t)
  = firstn 4 (split slash url) ++ [lit "tr:" ++ t]
    ++ skipn 4 (split slash url).
Proof.
  intros Ht Hs Hl. rewrite (splice_long url t Ht Hl).
  destruct (long_url_parts url Hl) as (H1 & H2 & _).
  pose proof (split_segments_no_sep slash url) as Hall.
  rewrite <- (firstn_skipn 4 (split slash url)) in Hall.
  apply Forall_app in Hall as [Ha Hb].
  set (pre := firstn 4 (split slash url)) in *.
  set (post := skipn 4 (split slash url)) in *.
  replace (join [slash] pre ++ lit "/tr:" ++ t ++ [slash] ++ join [slash] post)
    with (join [slash] (pre ++ [lit "tr:" ++ t] ++ post)).
  - apply split_join.
    + destruct pre; [congruence|discriminate].
    + apply Forall_app; split; [exact Ha|].
      apply Forall_app; split; [|exact Hb].
      constructor; [|constructor].
      intros Hin. apply in_app_or in Hin as [Hin|Hin]; [|now apply Hs].
      revert Hin. vm_compute. intuition discriminate.
  - rewrite join_app by (assumption || discriminate).
    rewrite join_app by (assumption || discriminate).
    cbn [join]. change (lit "/tr:") with (slash :: lit "tr:").
    cbn [app]. now rewrite <- app_assoc.
Qed.

(** X2.  With no caption, a non-empty transform that contains no '/',
    and a URL of five segments or more, the segments of the result are
    the first four segments of the URL, then the one segment
    'tr:'+transform, then the remaining segments of the URL. *)
Theorem builder_inserts_one_segment (url t : str) (caption : option str) :
  truthy_opt caption = false -> truthy t = true -> ~ In slash t ->
  5 <= Z.of_nat (List.length (split slash url)) ->
  exists r,
    create_transformed_url url t caption = Some r
    /\ split slash r
       = firstn 4 (split slash url) ++ [lit "tr:" ++ t]
         ++ skipn 4 (split slash url).
Proof.
  intros Hc Ht Hs Hl. exists (splice url t). split.
  - unfold create_transformed_url. now rewrite Hc.
  - now apply splice_segments.
Qed.

Lemma builder_inserts_one_segment_witness :
  exists r,
    create_transformed_url (lit "https://ik.io/abc/d/e.jpg") (lit "w-10") None
    = Some r
    /\ split slash r
       = firstn 4 (split slash (lit "https://ik.io/abc/d/e.jpg"))
         ++ [lit "tr:" ++ lit "w-10"]
         ++ skipn 4 (split slash (lit "https://ik.io/abc/d/e.jpg")).
Proof.
  apply (builder_inserts_one_segment (lit "https://ik.io/abc/d/e.jpg")
           (lit "w-10") None); try reflexivity.
  - vm_compute. intuition discriminate.
  - vm_compute. discriminate.
Defined.



Ltac bool_to_prop :=
  repeat rewrite ?orb_true_iff, ?andb_true_iff, ?Z.leb_le, ?Z.ltb_lt,
    ?Z.eqb_eq in *.

Lemma b64char_digit (i : Z) :
  0 <= i < 64 -> b64_digit_or_pad (b64char i) = true.
Proof.
  intros Hi. unfold b64_digit_or_pad. bool_to_prop. unfold b64char.
  destruct (Z.ltb_spec i 26); [lia|]. destruct (Z.ltb_spec i 52); [lia|].
  destruct (Z.ltb_spec i 62); [lia|]. destruct (Z.eqb_spec i 62); lia.
Qed.

Lemma b64encode_alphabet (bs : bytes) :
  Forall is_byte bs -> forallb b64_digit_or_pad (b64encode bs) = true.
Proof.
  induction bs as [|a|a b|a b c l IH] using triples_ind; intros H;
    cbn [b64encode forallb];
    repeat match goal with
    | H : Forall _ (_ :: _) |- _ => inversion H; subst; clear H
    end; unfold is_byte in *;
    repeat (rewrite b64char_digit by lia); try reflexivity.
  cbn [andb]. now apply IH.
Qed.

Lemma quoter_token_chars (b : Z) :
  b64_digit_or_pad b = true ->
  forallb token_char (quoter default_safe b) = true.
Proof.
  intros H. unfold b64_digit_or_pad in H. bool_to_prop.
  destruct H as [[[[[H|H]|H]|H]|H]|H]; try (subst b; reflexivity).
  all: assert (Hs : always_safe b || default_safe b = true)
         by (unfold always_safe, default_safe; bool_to_prop; lia).
  all: unfold quoter; rewrite Hs; cbn [forallb]; rewrite andb_true_r;
    unfold token_char; bool_to_prop; lia.
Qed.

Lemma overlay_token_chars (text tok : str) :
  encode_text_for_overlay text = Some tok ->
  forallb token_char tok = true.
Proof.
  intros H. destruct text as [|c text].
  - injection H as <-. reflexivity.
  - destruct (encode_utf8 (c :: text)) as [bs|] eqn:He.
    + rewrite (encode_text_for_overlay_eq (c :: text) bs eq_refl He) in H.
      injection H as <-.
      pose proof (b64encode_alphabet bs (encode_utf8_is_byte _ _ He)) as Ha.
      unfold quote_from_bytes.
      induction (b64encode bs) as [|b l IH]; [reflexivity|].
      cbn [forallb flat_map] in *. apply andb_true_iff in Ha as [Hb Hl].
      rewrite forallb_app, (quoter_token_chars b Hb). now apply IH.
    + unfold encode_text_for_overlay in H. cbn [truthy negb] in H.
      rewrite He in H. discriminate.
Qed.

(** X4.  Every character of a token returned by encode_text_for_overlay
    is a letter, a digit, '/' or '%'; in particular the token contains
    no ',', '+', '=' or space. *)
Theorem overlay_token_alphabet (text tok : str) :
  encode_text_for_overlay text = Some tok ->
  forallb token_char tok = true
  /\ ~ In comma tok /\ ~ In 43 tok /\ ~ In 61 tok /\ ~ In 32 tok.
Proof.
  intros H. pose proof (overlay_token_chars text tok H) as Hc.
  split; [exact Hc|]. rewrite forallb_forall in Hc.
  repeat split; intros Hin; apply Hc in Hin; discriminate.
Qed.

Lemma overlay_token_alphabet_witness :
  forallb token_char (lit "aGk%2Bfg%3D%3D") = true
  /\ ~ In comma (lit "aGk%2Bfg%3D%3D") /\ ~ In 43 (lit "aGk%2Bfg%3D%3D")
  /\ ~ In 61 (lit "aGk%2Bfg%3D%3D") /\ ~ In 32 (lit "aGk%2Bfg%3D%3D").
Proof.
  exact (overlay_token_alphabet (lit "hi>~") (lit "aGk%2Bfg%3D%3D") eq_refl).
Defined.

Lemma cons_eq {A} (a b : A) (l m : list A) :
  a :: l = b :: m -> a = b /\ l = m.
Proof. intros H. injection H as -> ->. now split. Qed.

Lemma some_eq {A} (a b : A) : Some a = Some b -> a = b.
Proof. congruence. Qed.

(** UTF-8 is a prefix code on the scalar values. *)
Lemma utf8_char_prefix_free (c1 c2 : Z) (b1 b2 r1 r2 : bytes) :
  utf8_char c1 = Some b1 -> utf8_char c2 = Some b2 ->
  b1 ++ r1 = b2 ++ r2 -> c1 = c2 /\ r1 = r2.
Proof.
  unfold utf8_char, scalar_value.
  destruct ((0 <=? c1) && (c1 <? 55296) || (57344 <=? c1) && (c1 <? 1114112))
    eqn:H1; [|discriminate].
  destruct ((0 <=? c2) && (c2 <? 55296) || (57344 <=? c2) && (c2 <? 1114112))
    eqn:H2; [|discriminate].
  cbn [negb].
  assert (R1 : 0 <= c1 < 1114112) by (revert H1; zcases; intros; discriminate).
  assert (R2 : 0 <= c2 < 1114112) by (revert H2; zcases; intros; discriminate).
  clear H1 H2.
  destruct (Z.ltb_spec c1 128); [|destruct (Z.ltb_spec c1 2048);
    [|destruct (Z.ltb_spec c1 65536)]];
  (destruct (Z.ltb_spec c2 128); [|destruct (Z.ltb_spec c2 2048);
    [|destruct (Z.ltb_spec c2 65536)]]);
  intros E1 E2; apply some_eq in E1, E2; subst b1 b2;
  unfold app; intros E;
  repeat match goal with
         | E : _ :: _ = _ :: _ |- _ =>
             let Hh := fresh "Hh" in
             let Ht := fresh "Ht" in
             apply cons_eq in E as [Hh Ht]
         end;
  split; first [lia | assumption | exfalso; lia].
Qed.

Lemma encode_utf8_injective (s1 s2 : str) (bs : bytes) :
  encode_utf8 s1 = Some bs -> encode_utf8 s2 = Some bs -> s1 = s2.
Proof.
  revert s2 bs. induction s1 as [|c1 s1 IH]; intros [|c2 s2] bs;
    cbn [encode_utf8]; try reflexivity.
  - intros H. injection H as <-.
    destruct (utf8_char c2) as [b2|] eqn:H2; [|discriminate].
    destruct (encode_utf8 s2); [|discriminate]. intros H. injection H as H.
    unfold utf8_char in H2. destruct (negb (scalar_value c2)); [discriminate|].
    destruct (c2 <? 128); [|destruct (c2 <? 2048); [|destruct (c2 <? 65536)]];
      injection H2 as <-; discriminate.
  - destruct (utf8_char c1) as [b1|] eqn:H1; [|discriminate].
    destruct (encode_utf8 s1); [|discriminate]. intros H. injection H as <-.
    intros H. injection H as H.
    unfold utf8_char in H1. destruct (negb (scalar_value c1)); [discriminate|].
    destruct (c1 <? 128); [|destruct (c1 <? 2048); [|destruct (c1 <? 65536)]];
      injection H1 as <-; discriminate.
  - destruct (utf8_char c1) as [b1|] eqn:H1; [|discriminate].
    destruct (encode_utf8 s1) as [r1|] eqn:E1; [|discriminate].
    destruct (utf8_char c2) as [b2|] eqn:H2; [|discriminate].
    destruct (encode_utf8 s2) as [r2|] eqn:E2; [|discriminate].
    intros H. injection H as <-. intros H. injection H as H.
    destruct (utf8_char_prefix_free c1 c2 b1 b2 r1 r2 H1 H2 (eq_sym H))
      as [-> ->].
    f_equal. now apply (IH s2 r2).
Qed.

(** X5.  encode_text_for_overlay is injective: two texts for which it
    returns the same token are equal. *)
Theorem overlay_token_injective (c1 c2 tok : str) :
  encode_text_for_overlay c1 = Some tok ->
  encode_text_for_overlay c2 = Some tok ->
  c1 = c2.
Proof.
  assert (Hne : forall (c : str) (bs : bytes),
             truthy c = true -> encode_utf8 c = Some bs ->
             quote_from_bytes default_safe (b64encode bs) <> []).
  { intros c bs Hc He Hq.
    destruct c as [|x c]; [discriminate|]. cbn [encode_utf8] in He.
    destruct (utf8_char x) as [b|] eqn:Hx; [|discriminate].
    destruct (encode_utf8 c); [|discriminate]. injection He as <-.
    assert (Hb : b <> []).
    { unfold utf8_char in Hx. destruct (negb (scalar_value x)); [discriminate|].
      destruct (x <? 128); [|destruct (x <? 2048); [|destruct (x <? 65536)]];
        injection Hx as <-; discriminate. }
    destruct b as [|y b]; [congruence|].
    destruct ((y :: b) ++ b0) as [|u [|v [|z l]]] eqn:Hl; [discriminate| | |];
      cbn [b64encode quote_from_bytes flat_map] in Hq;
      unfold quoter in Hq;
      destruct (always_safe _ || default_safe _) in Hq; discriminate. }
  intros H1 H2.
  destruct c1 as [|x1 c1], c2 as [|x2 c2]; [reflexivity| | |].
  - exfalso. injection H1 as <-.
    destruct (encode_utf8 (x2 :: c2)) as [bs|] eqn:He.
    + rewrite (encode_text_for_overlay_eq (x2 :: c2) bs eq_refl He) in H2.
      injection H2 as H2. now apply (Hne (x2 :: c2) bs).
    + unfold encode_text_for_overlay in H2. cbn [truthy negb] in H2.
      rewrite He in H2. discriminate.
  - exfalso. injection H2 as <-.
    destruct (encode_utf8 (x1 :: c1)) as [bs|] eqn:He.
    + rewrite (encode_text_for_overlay_eq (x1 :: c1) bs eq_refl He) in H1.
      injection H1 as H1. now apply (Hne (x1 :: c1) bs).
    + unfold encode_text_for_overlay in H1. cbn [truthy negb] in H1.
      rewrite He in H1. discriminate.
  - destruct (encode_utf8 (x1 :: c1)) as [b1|] eqn:E1.
    2:{ unfold encode_text_for_overlay in H1. cbn [truthy negb] in H1.
        rewrite E1 in H1. discriminate. }
    destruct (encode_utf8 (x2 :: c2)) as [b2|] eqn:E2.
    2:{ unfold encode_text_for_overlay in H2. cbn [truthy negb] in H2.
        rewrite E2 in H2. discriminate. }
    rewrite (encode_text_for_overlay_eq (x1 :: c1) b1 eq_refl E1) in H1.
    rewrite (encode_text_for_overlay_eq (x2 :: c2) b2 eq_refl E2) in H2.
    pose proof (decode_overlay_token_quote b1 (encode_utf8_is_byte _ _ E1))
      as D1.
    pose proof (decode_overlay_token_quote b2 (encode_utf8_is_byte _ _ E2))
      as D2.
    assert (b1 = b2) by congruence. subst b2.
    now apply (encode_utf8_injective _ _ b1).
Qed.

Lemma overlay_token_injective_witness : lit "hi" = lit "hi".
Proof.
  exact (overlay_token_injective (lit "hi") (lit "hi") (lit "aGk%3D")
           eq_refl eq_refl).
Defined.

Lemma strip_prefix_app (p s : str) : strip_prefix p (p ++ s) = Some s.
Proof.
  induction p as [|x p IH]; [reflexivity|].
  cbn [app strip_prefix]. now rewrite Z.eqb_refl.
Qed.

Lemma take_until_app (c : Z) (s rest : str) :
  ~ In c s -> take_until c (s ++ c :: rest) = s.
Proof.
  induction s as [|x s IH]; intros Hs; cbn [app take_until].
  - now rewrite Z.eqb_refl.
  - destruct (Z.eqb_spec x c) as [->|Hx]; [exfalso; apply Hs; now left|].
    rewrite IH; [reflexivity|]. intros H; apply Hs; now right.
Qed.

Lemma token_char_not (c x : Z) :
  token_char x = true -> c = 44 \/ c = 43 \/ c = 61 \/ c = 32 -> x <> c.
Proof.
  unfold token_char. bool_to_prop. lia.
Qed.

Lemma quoter_no_slash (b : Z) :
  b <> 47 -> 0 <= b < 256 -> ~ In 47 (quoter default_safe b).
Proof.
  intros Hb Hr. unfold quoter.
  destruct (always_safe b || default_safe b).
  - intros [H|[]]. congruence.
  - intros [H|[H|[H|[]]]]; [discriminate| |]; revert H; unfold hexdigit;
      zcases.
Qed.

Lemma quote_no_slash (bs : bytes) :
  Forall is_byte bs -> ~ In 47 bs ->
  ~ In 47 (quote_from_bytes default_safe bs).
Proof.
  unfold quote_from_bytes.
  induction 1 as [|b bs Hb _ IH]; intros Hn; [intros []|].
  cbn [flat_map]. intros H. apply in_app_or in H as [H|H].
  - revert H. apply quoter_no_slash; [|exact Hb].
    intros ->. apply Hn. now left.
  - revert H. apply IH. intros H. apply Hn. now right.
Qed.

(** X7.  For a non-empty caption whose base64 text contains no '/', and
    a URL of five segments or more, the token read back from the
    transform segment of the URL create_transformed_url builds (what
    follows 'tr:l-text,ie-' up to the next comma) decodes to the UTF-8
    bytes of the caption, whatever the transform argument. *)
Theorem embedded_token_round_trip (caption url t : str) (bs : bytes) :
  truthy caption = true ->
  encode_utf8 caption = Some bs ->
  ~ In slash (b64encode bs) ->
  5 <= Z.of_nat (List.length (split slash url)) ->
  exists out tok,
    create_transformed_url url t (Some caption) = Some out
    /\ embedded_token out = Some tok
    /\ decode_overlay_token tok = Some bs.
Proof.
  intros Hc Hbs Hns Hl.
  pose proof (encode_text_for_overlay_eq caption bs Hc Hbs) as He.
  set (tok := quote_from_bytes default_safe (b64encode bs)) in *.
  pose proof (encode_utf8_is_byte _ _ Hbs) as Hb.
  assert (Htok : ~ In slash tok).
  { apply quote_no_slash; [|exact Hns].
    apply ascii_is_byte. now apply b64encode_ascii. }
  assert (Hchars : forallb token_char tok = true)
    by exact (overlay_token_chars caption tok He).
  exists (splice url (text_overlay tok)), tok. split; [|split].
  - unfold create_transformed_url. cbn [truthy_opt]. now rewrite Hc, He.
  - assert (Hov : ~ In slash (text_overlay tok)).
    { unfold text_overlay. intros H.
      apply in_app_or in H as [H|H]; [revert H; vm_compute; intuition discriminate|].
      apply in_app_or in H as [H|H]; [now apply Htok|].
      revert H. vm_compute. intuition discriminate. }
    assert (Hseg : split slash (splice url (text_overlay tok))
                   = firstn 4 (split slash url) ++ [lit "tr:" ++ text_overlay tok]
                     ++ skipn 4 (split slash url)).
    { now apply splice_segments. }
    unfold embedded_token, transform_segment. rewrite Hseg.
    assert (Hlen : List.length (firstn 4 (split slash url)) = 4%nat).
    { apply firstn_length_le. lia. }
    rewrite app_nth2 by lia. rewrite Hlen. cbn [Nat.sub nth app].
    unfold text_overlay. rewrite app_assoc.
    rewrite strip_prefix_app.
    change overlay_suffix with (comma :: lit "ly-N20,lx-20,fs-100,co-white,bg-000000A0,l-end").
    rewrite take_until_app; [reflexivity|].
    intros H. rewrite forallb_forall in Hchars.
    apply (token_char_not comma comma (Hchars _ H)); [now left|reflexivity].
  - apply decode_overlay_token_quote. exact Hb.
Qed.

Lemma embedded_token_round_trip_witness :
  exists out tok,
    create_transformed_url (lit "https://ik.io/abc/d/e.jpg") []
      (Some (lit "hi>~")) = Some out
    /\ embedded_token out = Some tok
    /\ decode_overlay_token tok = Some [104; 105; 62; 126].
Proof.
  apply (embedded_token_round_trip (lit "hi>~") (lit "https://ik.io/abc/d/e.jpg")
           [] [104; 105; 62; 126]); try reflexivity.
  - vm_compute. intuition discriminate.
  - vm_compute. discriminate.
Defined.

(** X6.  For a non-empty text with UTF-8 bytes bs, the value
    encode_text_for_overlay returns percent-decodes and then
    base64-decodes to bs. *)
Theorem overlay_token_decodes (caption : str) (bs : bytes) :
  truthy caption = true ->
  encode_utf8 caption = Some bs ->
  exists tok,
    encode_text_for_overlay caption = Some tok
    /\ decode_overlay_token tok = Some bs.
Proof.
  intros Hc Hbs. eexists. split.
  - exact (encode_text_for_overlay_eq caption bs Hc Hbs).
  - apply decode_overlay_token_quote. now apply encode_utf8_is_byte with caption.
Qed.

Lemma overlay_token_decodes_witness :
  exists tok,
    encode_text_for_overlay (lit "???") = Some tok
    /\ decode_overlay_token tok = Some [63; 63; 63].
Proof.
  exact (overlay_token_decodes (lit "???") [63; 63; 63] eq_refl eq_refl).
Defined.

(** ** More on the reconcile block *)

(** X8.  The reconcile block sends exactly one request, GET /users/me
    with the session token and timeout 5, when the token is non-empty,
    the user is None and last_token_check_failed is unset, whatever the
    backend answers; otherwise it sends nothing and leaves the world
    unchanged. *)
Theorem reconcile_sends_once_when_due (be : Backend) (w : World) :
  sent (world_of (reconcile be w))
  = sent w ++ (if reconcile_due (session_state w)
               then [identity_request (token (session_state w)) (Some 5)]
               else [])
  /\ (reconcile_due (session_state w) = false -> reconcile be w = Done tt w).
Proof.
  destruct w as [[tok usr flag] qp log scr].
  unfold reconcile, reconcile_due, identity_request.
  destruct tok as [[|c tok]|], usr, flag; exec;
    try (split; [now rewrite app_nil_r|reflexivity]).
  split; [|discriminate].
  destruct (be log _) as [[st js tx]|]; exec; [|reflexivity].
  destruct (st =? 200); exec; [|reflexivity].
  destruct js as [[]|]; reflexivity.
Qed.

Lemma reconcile_sends_once_when_due_witness :
  reconcile_due (session_state (new_load None)) = false
  /\ reconcile accepting_backend (new_load None) = Done tt (new_load None).
Proof.
  split; [reflexivity|].
  exact (proj2 (reconcile_sends_once_when_due accepting_backend
                  (new_load None)) eq_refl).
Defined.

(** X9.  When the reconcile block is due and /users/me answers 200 with
    an identity, the user becomes that identity, token and query
    parameters are unchanged, the flag stays unset and the session is
    Authenticated. *)
Theorem reconcile_success (be : Backend) (w : World) (u : UserIdentity)
    (txt : str) :
  reconcile_due (session_state w) = true ->
  be (sent w) (identity_request (token (session_state w)) (Some 5))
  = Returns (mkResponse 200 (Some (JUser u)) txt) ->
  reconcile be w
  = Done tt (mkWorld (mkSession (token (session_state w)) (Some u) false)
                     (query_params w)
                     (sent w ++ [identity_request (token (session_state w))
                                                  (Some 5)])
                     (screen w))
  /\ state_of (mkSession (token (session_state w)) (Some u) false)
     = Authenticated.
Proof.
  destruct w as [[tok usr flag] qp log scr].
  unfold reconcile_due, identity_request. cbn [session_state token user
    last_token_check_failed sent query_params screen].
  destruct tok as [[|c tok]|], usr, flag; try discriminate.
  intros _ Hbe. split; [|reflexivity].
  unfold reconcile. exec. rewrite Hbe. reflexivity.
Qed.

Lemma reconcile_success_witness :
  let w := mkWorld (mkSession (Some (lit "tok")) None false)
                   (Some (lit "tok")) [] [] in
  reconcile accepting_backend w
  = Done tt (mkWorld (mkSession (Some (lit "tok"))
                                (Some (mkUser (lit "a@b.c") [])) false)
                     (Some (lit "tok"))
                     [identity_request (Some (lit "tok")) (Some 5)] [])
  /\ state_of (mkSession (Some (lit "tok")) (Some (mkUser (lit "a@b.c") []))
                         false)
     = Authenticated.
Proof.
  intros w.
  exact (reconcile_success accepting_backend w (mkUser (lit "a@b.c") []) []
           eq_refl eq_refl).
Defined.

(** X10.  When the reconcile block is due and /users/me answers 200 with
    a body that does not parse, the exception of response.json() is
    caught by the except branch: the token and the query parameters are
    kept, the user stays None and last_token_check_failed is set. *)
Theorem reconcile_unparseable_body (be : Backend) (w : World) (txt : str) :
  reconcile_due (session_state w) = true ->
  be (sent w) (identity_request (token (session_state w)) (Some 5))
  = Returns (mkResponse 200 None txt) ->
  reconcile be w
  = Done tt (mkWorld (mkSession (token (session_state w)) None true)
                     (query_params w)
                     (sent w ++ [identity_request (token (session_state w))
                                                  (Some 5)])
                     (screen w)).
Proof.
  destruct w as [[tok usr flag] qp log scr].
  unfold reconcile_due, identity_request. cbn [session_state token user
    last_token_check_failed sent query_params screen].
  destruct tok as [[|c tok]|], usr, flag; try discriminate.
  intros _ Hbe. unfold reconcile. exec. rewrite Hbe. reflexivity.
Qed.

Lemma reconcile_unparseable_body_witness :
  let be : Backend := fun _ _ => Returns (mkResponse 200 None []) in
  let w := mkWorld (mkSession (Some (lit "tok")) None false)
                   (Some (lit "tok")) [] [] in
  reconcile be w
  = Done tt (mkWorld (mkSession (Some (lit "tok")) None true)
                     (Some (lit "tok"))
                     [identity_request (Some (lit "tok")) (Some 5)] []).
Proof.
  intros be w.
  exact (reconcile_unparseable_body be w [] eq_refl eq_refl).
Defined.

(** ** More on the login page *)

(** X11.  While the e-mail or the password field is empty, login_page
    draws the title, the two inputs and the hint, draws no button and
    sends no request, whatever button the run claims was pressed. *)
Theorem login_form_needs_both_fields (be : Backend) (inp : Inputs) (w : World) :
  truthy (email_input inp) && truthy (password_input inp) = false ->
  login_page be inp w
  = Done tt (mkWorld (session_state w) (query_params w) (sent w)
               (screen w ++ login_form_drawn
                ++ [InfoMsg (lit "Enter your email and password above")])).
Proof.
  intros H. destruct w as [ss qp log scr]. unfold login_page. exec.
  rewrite H. exec. unfold login_form_drawn.
  repeat rewrite <- app_assoc. reflexivity.
Qed.

Lemma login_form_needs_both_fields_witness :
  login_page down_after_login
    (mkInputs (lit "a@b.c") [] (Some login_label) true None []) (new_load None)
  = Done tt (mkWorld initial_session None []
               ([] ++ login_form_drawn
                ++ [InfoMsg (lit "Enter your email and password above")])).
Proof.
  exact (login_form_needs_both_fields down_after_login
           (mkInputs (lit "a@b.c") [] (Some login_label) true None [])
           (new_load None) eq_refl).
Defined.

Section LoginPressed.
Variables (be : Backend) (inp : Inputs) (w : World).
Hypothesis email_typed : truthy (email_input inp) = true.
Hypothesis password_typed : truthy (password_input inp) = true.
Hypothesis login_pressed : clicked inp = Some login_label.

(** X12.  When Login is pressed and the login POST answers with a status
    other than 200, login_page sends that one request, leaves the
    session and the query parameters unchanged and shows 'Invalid email
    or password!'. *)
Theorem login_invalid_credentials (resp : Response) :
  be (sent w) (login_request (email_input inp) (password_input inp))
  = Returns resp ->
  status_code resp <> 200 ->
  login_page be inp w
  = Done tt (mkWorld (session_state w) (query_params w)
               (sent w ++ [login_request (email_input inp) (password_input inp)])
               (screen w ++ login_form_drawn
                ++ [Button login_label None;
                    ErrorMsg (lit "Invalid email or password!");
                    Button signup_label None])).
Proof.
  intros Hbe Hst. destruct w as [ss qp log scr].
  destruct inp as [em pw cl fc uf ci].
  cbn [sent email_input password_input clicked session_state query_params
       screen] in *.
  subst cl. destruct em as [|e0 em]; [discriminate|].
  destruct pw as [|p0 pw]; [discriminate|].
  apply Z.eqb_neq in Hst. unfold login_request in *.
  unfold login_page, login_clicked. exec. rewrite login_label_clicked. exec.
  rewrite Hbe. exec. rewrite Hst. exec. rewrite signup_not_login.
  unfold login_form_drawn. repeat rewrite <- app_assoc. reflexivity.
Qed.

(** X13.  When Login is pressed and the login POST raises a transport
    exception, login_page ends normally after the message 'Could not
    contact backend. Is the API running?', with session and query
    parameters unchanged, and the return of the handler leaves the Sign
    Up button undrawn. *)
Theorem login_backend_unreachable :
  be (sent w) (login_request (email_input inp) (password_input inp)) = Raises ->
  login_page be inp w
  = Done tt (mkWorld (session_state w) (query_params w)
               (sent w ++ [login_request (email_input inp) (password_input inp)])
               (screen w ++ login_form_drawn
                ++ [Button login_label None;
                    ErrorMsg
                      (lit "Could not contact backend. Is the API running?")])).
Proof.
  intros Hbe. destruct w as [ss qp log scr].
  destruct inp as [em pw cl fc uf ci].
  cbn [sent email_input password_input clicked session_state query_params
       screen] in *.
  subst cl. destruct em as [|e0 em]; [discriminate|].
  destruct pw as [|p0 pw]; [discriminate|].
  unfold login_request in *.
  unfold login_page, login_clicked. exec. rewrite login_label_clicked. exec.
  rewrite Hbe. exec.
  unfold login_form_drawn. repeat rewrite <- app_assoc. reflexivity.
Qed.

(** X14.  When Login is pressed and the login POST answers 200 with a
    body that does not parse, response.json() on line 99 is outside any
    try: the exception leaves login_page, with session and query
    parameters unchanged. *)
Theorem login_unparseable_answer (txt : str) :
  be (sent w) (login_request (email_input inp) (password_input inp))
  = Returns (mkResponse 200 None txt) ->
  login_page be inp w
  = Stop (Raise JsonError)
      (mkWorld (session_state w) (query_params w)
         (sent w ++ [login_request (email_input inp) (password_input inp)])
         (screen w ++ login_form_drawn ++ [Button login_label None])).
Proof.
  intros Hbe. destruct w as [ss qp log scr].
  destruct inp as [em pw cl fc uf ci].
  cbn [sent email_input password_input clicked session_state query_params
       screen] in *.
  subst cl. destruct em as [|e0 em]; [discriminate|].
  destruct pw as [|p0 pw]; [discriminate|].
  unfold login_request in *.
  unfold login_page, login_clicked. exec. rewrite login_label_clicked. exec.
  rewrite Hbe. exec. change (200 =? 200) with true. exec.
  unfold login_form_drawn. repeat rewrite <- app_assoc. reflexivity.
Qed.

End LoginPressed.

Lemma login_invalid_credentials_witness :
  login_page (fun _ _ => Returns (mkResponse 400 None [])) login_click
    (new_load None)
  = Done tt (mkWorld initial_session None
               ([] ++ [login_request (lit "a@b.c") (lit "pw")])
               ([] ++ login_form_drawn
                ++ [Button login_label None;
                    ErrorMsg (lit "Invalid email or password!");
                    Button signup_label None])).
Proof.
  apply (login_invalid_credentials (fun _ _ => Returns (mkResponse 400 None []))
           login_click (new_load None) eq_refl eq_refl eq_refl
           (mkResponse 400 None [])); [reflexivity|discriminate].
Defined.

Lemma login_backend_unreachable_witness :
  login_page (fun _ _ => Raises) login_click (new_load None)
  = Done tt (mkWorld initial_session None
               ([] ++ [login_request (lit "a@b.c") (lit "pw")])
               ([] ++ login_form_drawn
                ++ [Button login_label None;
                    ErrorMsg
                      (lit "Could not contact backend. Is the API running?")])).
Proof.
  exact (login_backend_unreachable (fun _ _ => Raises) login_click
           (new_load None) eq_refl eq_refl eq_refl eq_refl).
Defined.

Lemma login_unparseable_answer_witness :
  login_page (fun _ _ => Returns (mkResponse 200 None [])) login_click
    (new_load None)
  = Stop (Raise JsonError)
      (mkWorld initial_session None
         ([] ++ [login_request (lit "a@b.c") (lit "pw")])
         ([] ++ login_form_drawn ++ [Button login_label None])).
Proof.
  exact (login_unparseable_answer (fun _ _ => Returns (mkResponse 200 None []))
           login_click (new_load None) eq_refl eq_refl eq_refl [] eq_refl).
Defined.

(** ** Sign-up *)

(** X15.  The Sign Up handler sends exactly one POST /auth/register and
    never changes the session or the query parameters: a transport
    exception gives the contact error and a return; 201 gives the
    success message; any other status gives 'Registration failed: '
    followed by the detail of the body, or by 'Registration failed' when
    the body has no detail or does not parse. *)
Theorem signup_outcomes (be : Backend) (email password : str) (w : World) :
  let w1 := mkWorld (session_state w) (query_params w)
                    (sent w ++ [signup_request email password]) (screen w) in
  match be (sent w) (signup_request email password) with
  | Raises =>
      signup_clicked be email password w
      = Stop Return
          (mkWorld (session_state w) (query_params w) (sent w1)
             (screen w
              ++ [ErrorMsg
                    (lit "Could not contact backend. Is the API running?")]))
  | Returns resp =>
      signup_clicked be email password w
      = Done tt (mkWorld (session_state w) (query_params w) (sent w1)
                   (screen w ++ [signup_message resp]))
  end.
Proof.
  destruct w as [ss qp log scr]. cbv zeta. unfold signup_request.
  cbn [session_state query_params sent screen].
  unfold signup_clicked, signup_message, detail_of. exec.
  destruct (be log _) as [[st js tx]|]; exec; [|reflexivity].
  destruct (st =? 201); exec; [reflexivity|].
  destruct js as [[t|u|p|[d|]|]|]; exec; reflexivity.
Qed.

(** ** Logout *)

(** X16.  From a session with a user, pressing Logout ends the
    interaction (the run and its rerun) with token, user and query
    parameters cleared, last_token_check_failed unchanged, no request
    sent to the backend, and the login page on the screen. *)
Theorem logout_clears_everything (be : Backend) (inp : Inputs) (w : World)
    (u : UserIdentity) :
  user (session_state w) = Some u ->
  clicked inp = Some logout_label ->
  interact be inp w
  = Done tt
      (mkWorld (mkSession None None (last_token_check_failed (session_state w)))
               None (sent w)
               (if truthy (email_input inp) && truthy (password_input inp)
                then login_form_drawn
                     ++ [Button login_label None; Button signup_label None]
                else login_form_drawn
                     ++ [InfoMsg (lit "Enter your email and password above")])).
Proof.
  intros Hu Hc. destruct w as [[tok usr flag] qp log scr].
  destruct inp as [em pw cl fc uf ci].
  cbn [session_state user clicked last_token_check_failed sent email_input
       password_input] in *. subst usr cl.
  unfold interact, run, script, clear_screen.
  assert (Hfirst : (restore_token ;; reconcile be ;;
                    main be (mkInputs em pw (Some logout_label) fc uf ci))
                     (mkWorld (mkSession tok (Some u) flag) qp log [])
                   = Stop Rerun
                       (mkWorld (mkSession None None flag) None log
                          [SidebarTitle (waving_hand ++ lit " Hi " ++ email u
                                         ++ lit "!");
                           Button logout_label None])).
  { unfold restore_token, reconcile, main.
    destruct qp as [[|c' t]|], tok as [[|c tok]|]; exec; reflexivity. }
  cbn [session_state query_params sent]. rewrite Hfirst.
  cbn [session_state query_params sent].
  unfold restore_token, reconcile, main, login_page, unclicked. exec.
  destruct em as [|e0 em]; exec; [reflexivity|].
  destruct pw as [|p0 pw]; exec; reflexivity.
Qed.

Lemma logout_clears_everything_witness :
  let w := mkWorld (mkSession (Some (lit "tok")) (Some (mkUser (lit "a@b.c") []))
                              false) (Some (lit "tok")) [] [] in
  interact down_after_login (mkInputs [] [] (Some logout_label) true None []) w
  = Done tt
      (mkWorld (mkSession None None false) None []
         (login_form_drawn
          ++ [InfoMsg (lit "Enter your email and password above")])).
Proof.
  intros w.
  exact (logout_clears_everything down_after_login
           (mkInputs [] [] (Some logout_label) true None []) w
           (mkUser (lit "a@b.c") []) eq_refl eq_refl).
Defined.

(** ** Upload *)

(** X17.  Without an uploaded file, upload_page draws the form only: no
    Share button, no request, even when the run claims Share was
    pressed. *)
Theorem upload_without_file (be : Backend) (inp : Inputs) (w : World) :
  uploaded_file inp = None ->
  upload_page be inp w
  = Done tt (mkWorld (session_state w) (query_params w) (sent w)
               (screen w ++ upload_form)).
Proof.
  intros H. destruct w as [ss qp log scr]. unfold upload_page. exec.
  rewrite H. exec. unfold upload_form. repeat rewrite <- app_assoc.
  reflexivity.
Qed.

Lemma upload_without_file_witness :
  upload_page down_after_login
    (mkInputs [] [] (Some share_label) false None (lit "hi")) (new_load None)
  = Done tt (mkWorld initial_session None [] ([] ++ upload_form)).
Proof.
  exact (upload_without_file down_after_login
           (mkInputs [] [] (Some share_label) false None (lit "hi"))
           (new_load None) eq_refl).
Defined.

(** X18.  With a file and Share pressed, upload_page sends exactly one
    POST /upload carrying the session token, the file and the caption,
    and never raises: a transport exception gives the error message, 200
    gives 'Posted!' and st.rerun(), any other status gives 'Upload
    failed!' with the parsed body, or the raw text when the body does
    not parse. *)
Theorem upload_outcomes (be : Backend) (inp : Inputs) (w : World)
    (file : str * bytes * str) :
  uploaded_file inp = Some file ->
  clicked inp = Some share_label ->
  let req := upload_request w file (caption_input inp) in
  let drawn := screen w ++ upload_form ++ [Button share_label None] in
  let w1 extra := mkWorld (session_state w) (query_params w)
                          (sent w ++ [req]) (drawn ++ extra) in
  match be (sent w) req with
  | Raises =>
      upload_page be inp w
      = Done tt (w1 [ErrorMsg (lit "Upload failed: cannot contact backend.")])
  | Returns resp =>
      if status_code resp =? 200 then
        upload_page be inp w = Stop Rerun (w1 [SuccessMsg (lit "Posted!")])
      else
        upload_page be inp w
        = Done tt (w1 [ErrorWith (lit "Upload failed! ")
                         match json resp with
                         | Some j => ShownJson j
                         | None => ShownText (text resp)
                         end])
  end.
Proof.
  intros Hf Hc. destruct w as [ss qp log scr].
  destruct inp as [em pw cl fc uf ci]. destruct file as [[name value] type].
  cbn [uploaded_file clicked caption_input] in *. subst uf cl.
  cbv zeta. unfold upload_request.
  cbn [session_state query_params sent screen].
  unfold upload_page, upload_form. exec.
  change (str_eqb share_label share_label) with true. exec.
  destruct (be log _) as [[st js tx]|]; exec.
  - destruct (st =? 200); exec.
    + repeat rewrite <- app_assoc. reflexivity.
    + destruct js as [j|]; exec; repeat rewrite <- app_assoc; reflexivity.
  - repeat rewrite <- app_assoc. reflexivity.
Qed.

Lemma upload_outcomes_witness :
  upload_page (fun _ _ => Returns (mkResponse 200 None []))
    (mkInputs [] [] (Some share_label) false
              (Some (lit "a.mp4", [0; 1], lit "video/mp4")) (lit "hi"))
    (mkWorld (mkSession (Some (lit "tok")) (Some (mkUser (lit "a@b.c") []))
                        false) (Some (lit "tok")) [] [])
  = Stop Rerun
      (mkWorld (mkSession (Some (lit "tok")) (Some (mkUser (lit "a@b.c") []))
                          false) (Some (lit "tok"))
         [mkRequest POST Upload (Some (lit "tok"))
            (Multipart (lit "a.mp4") [0; 1] (lit "video/mp4")
                       [(lit "caption", lit "hi")]) (Some 30)]
         (upload_form ++ [Button share_label None; SuccessMsg (lit "Posted!")])).
Proof.
  exact (upload_outcomes (fun _ _ => Returns (mkResponse 200 None []))
           (mkInputs [] [] (Some share_label) false
                     (Some (lit "a.mp4", [0; 1], lit "video/mp4")) (lit "hi"))
           (mkWorld (mkSession (Some (lit "tok"))
                               (Some (mkUser (lit "a@b.c") [])) false)
                    (Some (lit "tok")) [] [])
           (lit "a.mp4", [0; 1], lit "video/mp4") eq_refl eq_refl).
Defined.


(** *** The media of a post *)







(** *** Pressing a delete button *)



(** ** How blocks end *)

Section EndsIn.
Variable ok : Signal -> Prop.

Lemma ends_ret {A} (a : A) : ends_in ok (ret a).
Proof. intros w. exact I. Qed.

Lemma ends_get {A} (f : World -> A) : ends_in ok (get f).
Proof. intros w. exact I. Qed.

Lemma ends_draw (x : Widget) : ends_in ok (draw x).
Proof. intros w. exact I. Qed.

Lemma ends_set_session (f : SessionState -> SessionState) :
  ends_in ok (set_session f).
Proof. intros w. exact I. Qed.

Lemma ends_set_query_params (t : option str) :
  ends_in ok (experimental_set_query_params t).
Proof. intros w. exact I. Qed.

Lemma ends_stop {A} (s : Signal) : ok s -> ends_in ok (@stop A s).
Proof. intros H w. exact H. Qed.

Lemma ends_request (be : Backend) (r : Request) :
  ok (Raise TransportError) -> ends_in ok (request be r).
Proof. intros H w. unfold request. destruct (be (sent w) r); [exact I|exact H]. Qed.

Lemma ends_json_of (resp : Response) :
  ok (Raise JsonError) -> ends_in ok (json_of resp).
Proof. intros H w. unfold json_of. destruct (json resp); [exact I|exact H]. Qed.

Lemma ends_bind {A B} (m : M A) (k : A -> M B) :
  ends_in ok m -> (forall a, ends_in ok (k a)) -> ends_in ok (bind m k).
Proof.
  intros Hm Hk w. unfold bind. specialize (Hm w).
  destruct (m w) as [a w'|s w']; [apply Hk|exact Hm].
Qed.

Lemma ends_bind_ret {A B} (a : A) (k : A -> M B) :
  ends_in ok (k a) -> ends_in ok (bind (ret a) k).
Proof. intros H w. exact (H w). Qed.

Lemma ends_bind_assoc {A B C} (m : M A) (f : A -> M B) (k : B -> M C) :
  ends_in ok (bind m (fun a => bind (f a) k)) -> ends_in ok (bind (bind m f) k).
Proof.
  intros H w. specialize (H w). unfold bind in *.
  destruct (m w) as [a w'|s w']; exact H.
Qed.

Lemma ends_try_except {A} (body handler : M A) :
  ends_in (fun s => ok s \/ exists e, s = Raise e) body ->
  ends_in ok handler -> ends_in ok (try_except body handler).
Proof.
  intros Hb Hh w. unfold try_except. specialize (Hb w).
  destruct (body w) as [a w'|[e| | |] w']; try exact I; try apply Hh;
    destruct Hb as [H|(e' & H)]; try exact H; discriminate.
Qed.

Lemma ends_def (body : M unit) :
  ends_in (fun s => ok s \/ s = Return) body -> ends_in ok (def body).
Proof.
  intros Hb w. unfold def. specialize (Hb w).
  destruct (body w) as [a w'|[e| | |] w']; try exact I;
    destruct Hb as [H|H]; try exact H; discriminate.
Qed.

Lemma ends_pass (body : M unit) :
  ends_in (fun s => ok s \/ s = Continue) body -> ends_in ok (pass body).
Proof.
  intros Hb w. unfold pass. specialize (Hb w).
  destruct (body w) as [a w'|[e| | |] w']; try exact I;
    destruct Hb as [H|H]; try exact H; discriminate.
Qed.

Lemma ends_for_each {A} (body : A -> M unit) (l : list A) :
  (forall x, ends_in ok (body x)) -> ends_in ok (for_each body l).
Proof.
  intros Hb. induction l as [|x l IH]; cbn [for_each].
  - apply ends_ret.
  - apply ends_bind; [apply Hb|intros _; exact IH].
Qed.

End EndsIn.

(** Walks through a block, leaving the signals it may stop with. *)
Ltac endings :=
  repeat lazymatch goal with
    | |- ends_in _ (bind (ret _) _) => apply ends_bind_ret; cbv beta iota
    | |- ends_in _ (bind (bind _ _) _) => apply ends_bind_assoc
    | |- ends_in _ (bind _ _) => apply ends_bind; [|intro; cbv beta]
    | |- ends_in _ (ret _) => apply ends_ret
    | |- ends_in _ (get _) => apply ends_get
    | |- ends_in _ (draw _) => apply ends_draw
    | |- ends_in _ (set_session _) => apply ends_set_session
    | |- ends_in _ (experimental_set_query_params _) =>
        apply ends_set_query_params
    | |- ends_in _ (try_except _ _) => apply ends_try_except
    | |- ends_in _ (def _) => apply ends_def
    | |- ends_in _ (pass _) => apply ends_pass
    | |- ends_in _ (for_each _ _) => apply ends_for_each; intro; cbv beta
    | |- ends_in _ (request _ _) => apply ends_request
    | |- ends_in _ (json_of _) => apply ends_json_of
    | |- ends_in _ (stop _) => apply ends_stop
    | |- ends_in _ (if ?b then _ else _) => destruct b eqn:?
    | |- ends_in _ (match ?x with _ => _ end) => destruct x eqn:?
    end.

Ltac signal_ok :=
  repeat match goal with
         | |- _ \/ _ => first [left; signal_ok; fail | right; signal_ok; fail]
         | |- exists _, _ => eexists
         | |- _ /\ _ => split
         | |- _ <> _ => discriminate
         | |- _ = _ => reflexivity
         end.

Lemma str_eqb_eq (a b : str) : str_eqb a b = true -> a = b.
Proof.
  revert b. induction a as [|x a IH]; intros [|y b]; cbn [str_eqb];
    try discriminate; [reflexivity|].
  intros H. apply andb_true_iff in H as [Hx Hab].
  apply Z.eqb_eq in Hx. subst y. f_equal. now apply IH.
Qed.

(** X24.  A run of the script in which no button is pressed never calls
    st.rerun(), never ends in a stray return or continue, and no
    transport exception leaves it; so the run a st.rerun() starts cannot
    start another. *)
Theorem idle_run_never_reruns (be : Backend) (inp : Inputs) (w : World) :
  clicked inp = None ->
  match run be inp w with
  | Done _ _ => True
  | Stop s _ => exists e, s = Raise e /\ e <> TransportError
  end.
Proof.
  intros Hc. unfold run.
  assert (H : ends_in (fun s => exists e, s = Raise e /\ e <> TransportError)
                (script be inp)); [|exact (H (clear_screen w))].
  open_script. rewrite Hc. cbv beta. endings; signal_ok.
Qed.

Lemma idle_run_never_reruns_witness :
  match run down_after_login (unclicked login_click) (new_load None) with
  | Done _ _ => True
  | Stop s _ => exists e, s = Raise e /\ e <> TransportError
  end.
Proof.
  exact (idle_run_never_reruns down_after_login (unclicked login_click)
           (new_load None) eq_refl).
Defined.

(** X25.  In a run where the pressed button is not Login, no transport
    exception leaves the script: every other call of requests
    (reconcile, sign-up, feed, delete, upload) is inside a try. *)
Theorem transport_exception_needs_login_click
    (be : Backend) (inp : Inputs) (w : World) :
  clicked inp <> Some login_label ->
  match run be inp w with
  | Done _ _ => True
  | Stop s _ => s = Rerun \/ exists e, s = Raise e /\ e <> TransportError
  end.
Proof.
  intros Hc. unfold run.
  assert (H : ends_in (fun s => s = Rerun
                                \/ exists e, s = Raise e /\ e <> TransportError)
                (script be inp)); [|exact (H (clear_screen w))].
  assert (Hlogin : match clicked inp with
                   | Some c => str_eqb c (widget_id login_label None)
                   | None => false
                   end = false).
  { destruct (clicked inp) as [c|]; [|reflexivity].
    cbn [widget_id]. destruct (str_eqb c login_label) eqn:E; [|reflexivity].
    apply str_eqb_eq in E. congruence. }
  unfold script, main, login_page, upload_page, feed_page,
    signup_clicked, render_post, delete_column, reconcile, restore_token,
    get_headers, button, transformed, detail_of, posts_of,
    set_token, set_user, set_last_token_check_failed.
  rewrite Hlogin. cbv beta. endings; signal_ok.
Qed.

Lemma transport_exception_needs_login_click_witness :
  match run (fun _ _ => Raises)
            (mkInputs (lit "a@b.c") (lit "pw") (Some signup_label) true None [])
            (new_load None) with
  | Done _ _ => True
  | Stop s _ => s = Rerun \/ exists e, s = Raise e /\ e <> TransportError
  end.
Proof.
  apply (transport_exception_needs_login_click (fun _ _ => Raises)
           (mkInputs (lit "a@b.c") (lit "pw") (Some signup_label) true None [])
           (new_load None)).
  discriminate.
Defined.

(** ** Pages and the session *)

(** X26.  feed_page and upload_page never change st.session_state or the
    query parameters, whatever the backend answers and whatever is
    pressed. *)
Theorem pages_leave_session_alone (be : Backend) (inp : Inputs) (w : World) :
  (session_state (world_of (feed_page be inp w)) = session_state w
   /\ query_params (world_of (feed_page be inp w)) = query_params w)
  /\ (session_state (world_of (upload_page be inp w)) = session_state w
      /\ query_params (world_of (upload_page be inp w)) = query_params w).
Proof.
  destruct (pages_keep_session be inp (session_state w) (query_params w))
    as [Hf Hu].
  split; [apply Hf|apply Hu]; split; reflexivity.
Qed.

(** X27.  Once last_token_check_failed is set, no sequence of
    interactions resets it in the session, so the session is never in
    PendingVerification again (a later login whose identity fetch is
    rejected leaves it in VerificationFailed). *)
Theorem failed_check_is_permanent (be : Backend) (inps : list Inputs)
    (w : World) :
  last_token_check_failed (session_state w) = true ->
  last_token_check_failed (session_state (after be inps w)) = true
  /\ state_of (session_state (after be inps w)) <> PendingVerification.
Proof.
  intros H. pose proof (after_keeps_check_failed be inps w H) as Ha.
  unfold check_failed in Ha. split; [exact Ha|].
  unfold state_of. rewrite Ha.
  destruct (token (session_state (after be inps w))),
    (user (session_state (after be inps w))); discriminate.
Qed.

Lemma failed_check_is_permanent_witness :
  let w := mkWorld (mkSession None None true) None [] [] in
  last_token_check_failed
    (session_state (after accepting_backend [login_click] w)) = true
  /\ state_of (session_state (after accepting_backend [login_click] w))
     <> PendingVerification.
Proof.
  intros w.
  exact (failed_check_is_permanent accepting_backend [login_click] w eq_refl).
Defined.

(** ** Invariants of the session *)

Lemma sound_restorable (w : World) : session_sound w -> session_restorable w.
Proof. intros [H1 H2]. split; [now right|exact H2]. Qed.

Lemma restore_token_sound (w : World) :
  session_restorable w -> session_sound (world_of (restore_token w)).
Proof.
  destruct w as [[tok usr flag] qp log scr]. unfold session_restorable,
    session_sound, restore_token.
  cbn [session_state token user query_params]. intros [[-> | ->] Hu].
  - destruct qp as [t|]; exec; (split; [reflexivity|]); [discriminate|exact Hu].
  - destruct qp as [[|c t]|]; exec; (split; [reflexivity|exact Hu]).
Qed.

Lemma reconcile_sound (be : Backend) : preserves session_sound (reconcile be).
Proof.
  intros w. destruct w as [[tok usr flag] qp log scr].
  unfold session_sound, reconcile.
  cbn [session_state token user query_params]. intros [-> Hu].
  destruct qp as [[|c t]|], usr, flag; exec;
    try (split; [reflexivity|exact Hu]).
  destruct (be log _) as [[st js tx]|]; exec;
    [|split; [reflexivity|discriminate]].
  destruct (st =? 200); exec; [|split; [reflexivity|congruence]].
  destruct js as [[]|]; exec; split; try reflexivity; discriminate.
Qed.

Lemma login_clicked_sound (be : Backend) (email password : str) :
  preserves session_sound (login_clicked be email password).
Proof.
  intros w. destruct w as [[tok usr flag] qp log scr].
  unfold session_sound, login_clicked.
  cbn [session_state token user query_params]. intros [-> Hu].
  exec. destruct (be log _) as [[st js tx]|]; exec;
    [|split; [reflexivity|exact Hu]].
  destruct (st =? 200); exec; [|split; [reflexivity|exact Hu]].
  destruct js as [[t| | | |]|]; exec; try (split; [reflexivity|exact Hu]).
  destruct (be _ _) as [[st2 js2 tx2]|]; exec;
    try (split; [reflexivity|discriminate]).
  destruct (st2 =? 200); exec; [|split; [reflexivity|discriminate]].
  destruct js2 as [[]|]; exec; split; try reflexivity; discriminate.
Qed.

(** [walk] by the shape of the block, stopping at the calls it does not
    know. *)
Ltac steps :=
  repeat lazymatch goal with
    | |- preserves _ (bind _ _) => apply preserves_bind; [|intro; cbv beta]
    | |- preserves _ (ret _) => apply preserves_ret
    | |- preserves _ (stop _) => apply preserves_stop
    | |- preserves _ (get _) => apply preserves_get
    | |- preserves _ (json_of _) => apply preserves_json_of
    | |- preserves _ (try_except _ _) => apply preserves_try_except
    | |- preserves _ (def _) => apply preserves_def
    | |- preserves _ (pass _) => apply preserves_pass
    | |- preserves _ (if ?b then _ else _) => destruct b eqn:?
    | |- preserves _ (match ?x with _ => _ end) => destruct x eqn:?
    end.

Ltac frame_steps :=
  try (apply preserves_draw; intros ? Hp; exact Hp);
  try (apply preserves_request; intros ? Hp; exact Hp).

Lemma login_page_sound (be : Backend) (inp : Inputs) :
  preserves session_sound (login_page be inp).
Proof.
  unfold login_page, signup_clicked, button, detail_of. cbv beta.
  steps; frame_steps. apply login_clicked_sound.
Qed.

Lemma pages_sound (be : Backend) (inp : Inputs) (w : World) :
  session_sound w ->
  session_sound (world_of (feed_page be inp w))
  /\ session_sound (world_of (upload_page be inp w)).
Proof.
  intros Hs.
  destruct (pages_keep_session be inp (session_state w) (query_params w))
    as [Hf Hu].
  destruct (Hf w (conj eq_refl eq_refl)) as [Hf1 Hf2].
  destruct (Hu w (conj eq_refl eq_refl)) as [Hu1 Hu2].
  unfold session_sound in *. rewrite Hf1, Hf2, Hu1, Hu2. now split.
Qed.

Lemma main_sound (be : Backend) (inp : Inputs) :
  preserves session_sound (main be inp).
Proof.
  intros w Hs. unfold main. unfold bind at 1. unfold get at 1.
  destruct (user (session_state w)) as [u|] eqn:Hu;
    [|now apply login_page_sound].
  destruct w as [[tok usr flag] qp log scr]. unfold button. exec.
  destruct (match clicked inp with
            | Some c => str_eqb c logout_label | None => false end); exec.
  - split; [reflexivity|]. intros H. now contradict H.
  - destruct (feed_chosen inp);
      match goal with
      | |- context [feed_page be inp ?w1] =>
          exact (proj1 (pages_sound be inp w1 Hs))
      | |- context [upload_page be inp ?w1] =>
          exact (proj2 (pages_sound be inp w1 Hs))
      end.
Qed.

Lemma run_sound (be : Backend) (inp : Inputs) (w : World) :
  session_restorable w -> session_sound (world_of (run be inp w)).
Proof.
  intros Hr. unfold run, script.
  assert (Hc : session_restorable (clear_screen w)) by exact Hr.
  pose proof (restore_token_sound _ Hc) as H1.
  unfold bind at 1.
  destruct (restore_token (clear_screen w)) as [[] w1|s w1] eqn:E1;
    cbn [world_of] in H1; [|exact H1].
  apply (preserves_bind session_sound (reconcile be) (fun _ => main be inp));
    [apply reconcile_sound|intros _; apply main_sound|exact H1].
Qed.

Lemma interact_sound (be : Backend) (inp : Inputs) (w : World) :
  session_restorable w -> session_sound (world_of (interact be inp w)).
Proof.
  intros Hr. unfold interact. pose proof (run_sound be inp w Hr) as H1.
  destruct (run be inp w) as [a w'|[e| | |] w']; cbn [world_of] in *;
    try exact H1.
  apply run_sound. now apply sound_restorable.
Qed.

(** X28.  After any sequence of interactions from a new load, with any
    backend, a session that has a user has a token; and after at least
    one interaction the session token equals the token in the query
    parameters. *)
Theorem session_stays_sound (be : Backend) (inps : list Inputs)
    (carrier : option str) :
  let w := after be inps (new_load carrier) in
  (user (session_state w) <> None -> token (session_state w) <> None)
  /\ (inps <> [] -> token (session_state w) = query_params w).
Proof.
  cbv zeta.
  assert (Hafter : forall inps w, session_sound w ->
                                  session_sound (after be inps w)).
  { intros l. induction l as [|inp l IH]; intros w Hs; [exact Hs|].
    cbn [after fold_left]. apply IH. apply interact_sound.
    now apply sound_restorable. }
  destruct inps as [|inp inps].
  - split; [|congruence]. cbn. congruence.
  - assert (Hs : session_sound (after be (inp :: inps) (new_load carrier))).
    { cbn [after fold_left]. apply Hafter. apply interact_sound.
      split; [now left|]. cbn. congruence. }
    destruct Hs as [H1 H2]. split; [exact H2|intros _; exact H1].
Qed.

(** ** The feed page *)

(** X23.  feed_page sends one GET /feed with the session token. A
    transport exception or a status other than 200 ends in one error
    message; 200 with a body that does not parse or is not an object
    raises out of the page; 200 with no posts shows the 'No posts yet'
    hint; 200 with posts runs the loop over exactly those posts. *)
Theorem feed_outcomes (be : Backend) (inp : Inputs) (w : World) :
  let w1 extra :=
    add_screen (add_sent w (feed_request w))
               (Title (house ++ lit " Feed") :: extra) in
  match be (sent w) (feed_request w) with
  | Raises =>
      feed_page be inp w
      = Done tt (w1 [ErrorMsg
                       (lit "Failed to contact backend. Is the API running?")])
  | Returns resp =>
      if status_code resp =? 200 then
        match json resp with
        | None | Some JOther => feed_page be inp w = Stop (Raise JsonError) (w1 [])
        | Some (JFeed (Some (p :: ps))) =>
            feed_page be inp w
            = def (for_each (render_post be inp) (p :: ps)) (w1 [])
        | Some _ =>
            feed_page be inp w
            = Done tt (w1 [InfoMsg
                             (lit "No posts yet! Be the first to share something.")])
        end
      else feed_page be inp w = Done tt (w1 [ErrorMsg (lit "Failed to load feed")])
  end.
Proof.
  destruct w as [ss qp log scr]. cbv zeta.
  unfold feed_request, add_screen, add_sent.
  cbn [session_state query_params sent screen].
  destruct (be log _) as [[st js tx]|] eqn:Hbe; cbn [status_code json].
  - destruct (st =? 200) eqn:Hst.
    + destruct js as [[t|u|[[|p ps]|]|d|]|];
        unfold feed_page, posts_of, def; exec; rewrite Hbe; exec; rewrite Hst;
        exec; repeat rewrite <- app_assoc; reflexivity.
    + unfold feed_page. exec. rewrite Hbe. exec. rewrite Hst. exec.
      repeat rewrite <- app_assoc. reflexivity.
  - unfold feed_page. exec. rewrite Hbe. exec.
    repeat rewrite <- app_assoc. reflexivity.
Qed.

(** ** The bearer token of the pages' requests *)

Section Bearer.
Variables (tok : str) (w0 : World).
Hypothesis token_set : token (session_state w0) = Some tok.
Hypothesis token_truthy : truthy tok = true.

Lemma preserves_headers {A} (k : option str -> M A) :
  preserves (sends_with_token tok w0) (k (Some tok)) ->
  preserves (sends_with_token tok w0) (bind get_headers k).
Proof.
  intros Hk w Hw.
  assert (E : bind get_headers k w = k (Some tok) w).
  { destruct Hw as [Hs _]. unfold get_headers. exec.
    rewrite Hs, token_set. cbn [truthy_opt]. now rewrite token_truthy. }
  rewrite E. now apply Hk.
Qed.

Ltac bearer_steps :=
  repeat lazymatch goal with
    | |- preserves _ (bind get_headers _) => apply preserves_headers; cbv beta
    | |- preserves _ (bind _ _) => apply preserves_bind; [|intro; cbv beta]
    | |- preserves _ (ret _) => apply preserves_ret
    | |- preserves _ (stop _) => apply preserves_stop
    | |- preserves _ (get _) => apply preserves_get
    | |- preserves _ (json_of _) => apply preserves_json_of
    | |- preserves _ (try_except _ _) => apply preserves_try_except
    | |- preserves _ (def _) => apply preserves_def
    | |- preserves _ (pass _) => apply preserves_pass
    | |- preserves _ (for_each _ _) => apply preserves_for_each; intros ? _
    | |- preserves _ (draw _) =>
        apply preserves_draw; intros ? Hp; exact Hp
    | |- preserves _ (request _ _) =>
        apply preserves_request; intros ? [Hs Hr]; split; [exact Hs|];
        cbn [sent]; intros ? Hin;
        apply in_app_or in Hin as [Hin|[<-|[]]]; [now apply Hr|now right]
    | |- preserves _ (if ?b then _ else _) => destruct b eqn:?
    | |- preserves _ (match ?x with _ => _ end) => destruct x eqn:?
    end.

Lemma pages_send_with_token (be : Backend) (inp : Inputs) :
  preserves (sends_with_token tok w0) (feed_page be inp)
  /\ preserves (sends_with_token tok w0) (upload_page be inp).
Proof.
  split.
  - unfold feed_page, posts_of. cbv beta. bearer_steps.
    all: unfold render_post, delete_column, transformed, button; cbv beta;
      bearer_steps.
  - unfold upload_page, button. cbv beta. bearer_steps.
Qed.

End Bearer.

(** X29.  With a non-empty session token, every request that feed_page
    or upload_page sends (feed fetch, deletes, upload) carries that
    token as its bearer. *)
Theorem page_requests_carry_token (be : Backend) (inp : Inputs) (w : World)
    (tok : str) :
  token (session_state w) = Some tok -> truthy tok = true ->
  (forall r, In r (sent (world_of (feed_page be inp w))) ->
             In r (sent w) \/ bearer r = Some tok)
  /\ (forall r, In r (sent (world_of (upload_page be inp w))) ->
                In r (sent w) \/ bearer r = Some tok).
Proof.
  intros Ht Htr.
  destruct (pages_send_with_token tok w Ht Htr be inp) as [Hf Hu].
  assert (H0 : sends_with_token tok w w) by (split; [reflexivity|now left]).
  split; [apply (Hf w H0)|apply (Hu w H0)].
Qed.

Lemma page_requests_carry_token_witness :
  let w := mkWorld (mkSession (Some (lit "tok")) (Some (mkUser (lit "a@b.c") []))
                              false) (Some (lit "tok")) [] [] in
  let inp := mkInputs [] [] None true None [] in
  (forall r, In r (sent (world_of (feed_page accepting_backend inp w))) ->
             In r (sent w) \/ bearer r = Some (lit "tok"))
  /\ (forall r, In r (sent (world_of (upload_page accepting_backend inp w))) ->
                In r (sent w) \/ bearer r = Some (lit "tok")).
Proof.
  intros w inp.
  exact (page_requests_carry_token accepting_backend inp w (lit "tok")
           eq_refl eq_refl).
Defined.

(** ** The endpoints of the login page *)

(** X30.  Every request login_page sends goes to /auth/jwt/login,
    /auth/register or /users/me: the login page never touches the feed,
    upload or delete endpoints. *)
Theorem login_page_endpoints (be : Backend) (inp : Inputs) (w : World) :
  forall r, In r (sent (world_of (login_page be inp w))) ->
            In r (sent w) \/ auth_endpoint (endpoint r) = true.
Proof.
  assert (H : preserves (sends_auth_only w) (login_page be inp)).
  { open_script. walk.
    all: first
      [ apply preserves_draw; intros ? Hp; exact Hp
      | apply preserves_set_session; intros ? Hp; exact Hp
      | apply preserves_set_query_params; intros ? Hp; exact Hp
      | apply preserves_request; intros ? Hr; unfold sends_auth_only in *;
        cbn [sent]; intros ? Hin;
        apply in_app_or in Hin as [Hin|[<-|[]]]; [now apply Hr|now right] ]. }
  apply (H w). intros r Hr. now left.
Qed.

Lemma session_stays_sound_witness :
  let w := after accepting_backend [login_click] (new_load None) in
  token (session_state w) = query_params w.
Proof.
  intros w.
  apply (proj2 (session_stays_sound accepting_backend [login_click] None)).
  discriminate.
Defined.

Lemma login_page_endpoints_witness :
  In (login_request (lit "a@b.c") (lit "pw")) (sent (new_load None))
  \/ auth_endpoint (endpoint (login_request (lit "a@b.c") (lit "pw"))) = true.
Proof.
  apply (login_page_endpoints accepting_backend login_click (new_load None)).
  vm_compute. left. reflexivity.
Defined.
